(** * Sales Platform Authentication Service

    A shallow embedding of [src/users/users.service.ts] (UsersService) and
    [src/auth/auth.service.ts] (AuthService), together with the part of the
    [users] table and of the TypeORM repository they rely on, followed by
    the properties of the authentication decision logic.

    Conventions.
    - A row of the [users] table is the typed record [User.t]; the table is
      the list of its rows in insertion order.
    - What the services hand around at run time are plain JavaScript
      objects: finite maps from property names to values ([obj]).  A
      property that is [undefined] is an absent key.
    - A method is a function of the store returning an outcome (a value or
      a thrown exception) and the store afterwards.
    - What PostgreSQL decides and the services do not see (how it converts
      a parameter to the type of its column, in which order a query
      without ORDER BY returns the rows, which texts denote a uuid) is the
      class [Postgres]; the properties hold for every instance. *)

From Stdlib Require Import ZArith NArith List String Ascii Bool Lia.
From stdpp Require Import base option gmap strings list fin_maps sorting.

Open Scope string_scope.

(** ** JavaScript values and objects *)

(** A primary key is a [uuid]: a 128-bit number.  The services never look
    at its textual form; a key that arrives as the text of a route goes
    through the database's reading of it ([pg_uuid], [with_route_id]). *)
Abbreviation uuid := N.

Inductive value :=
| VNull
| VBool (b : bool)
| VStr (s : string)
| VDate (t : Z)
| VUuid (i : uuid).

#[global] Instance value_eq_dec : EqDecision value.
Proof. solve_decision. Defined.

Abbreviation obj := (gmap string value).

(** An object literal [{ k1: e1, ..., kn: en }] in which an [undefined]
    expression leaves no property behind. *)
Fixpoint obj_literal (props : list (string * option value)) : obj :=
  match props with
  | [] => ∅
  | (k, Some v) :: rest => <[k := v]> (obj_literal rest)
  | (_, None) :: rest => obj_literal rest
  end.

(** [Object.assign(target, source)]: the properties of [source] win. *)
Definition object_assign (target source : obj) : obj := source ∪ target.

(** [const { k: _, ...rest } = o]. *)
Definition omit (k : string) (o : obj) : obj := delete k o.

(** The properties of [o] named in [ks]. *)
Definition pick (ks : list string) (o : obj) : obj :=
  filter (λ kv, kv.1 ∈ ks) o.

(** A string in a boolean position: only the empty string is falsy. *)
Definition truthy (s : string) : bool := negb (s =? "").

(** ** The entity (users/entities/user.entity.ts) *)

Inductive AuthProvider := LOCAL | GOOGLE | FACEBOOK | TWITTER.

#[global] Instance AuthProvider_eq_dec : EqDecision AuthProvider.
Proof. solve_decision. Defined.

Definition provider_string (p : AuthProvider) : string :=
  match p with
  | LOCAL => "local"
  | GOOGLE => "google"
  | FACEBOOK => "facebook"
  | TWITTER => "twitter"
  end.

Definition provider_of_string (s : string) : option AuthProvider :=
  if s =? "local" then Some LOCAL
  else if s =? "google" then Some GOOGLE
  else if s =? "facebook" then Some FACEBOOK
  else if s =? "twitter" then Some TWITTER
  else None.

Module User.
Record t := mk {
  id : uuid;
  email : string;
  password : option string;
  name : string;
  profilePicture : option string;
  authProvider : AuthProvider;
  providerId : option string;
  isActive : bool;
  emailVerified : bool;
  emailVerificationToken : option string;
  resetPasswordToken : option string;
  resetPasswordExpires : option Z;
  createdAt : Z;
  updatedAt : Z;
  lastLogin : option Z
}.

Definition set_id v u :=
  let '(mk _ b c d e f g h i j k l m n o) := u in mk v b c d e f g h i j k l m n o.
Definition set_email v u :=
  let '(mk a _ c d e f g h i j k l m n o) := u in mk a v c d e f g h i j k l m n o.
Definition set_password v u :=
  let '(mk a b _ d e f g h i j k l m n o) := u in mk a b v d e f g h i j k l m n o.
Definition set_name v u :=
  let '(mk a b c _ e f g h i j k l m n o) := u in mk a b c v e f g h i j k l m n o.
Definition set_profilePicture v u :=
  let '(mk a b c d _ f g h i j k l m n o) := u in mk a b c d v f g h i j k l m n o.
Definition set_authProvider v u :=
  let '(mk a b c d e _ g h i j k l m n o) := u in mk a b c d e v g h i j k l m n o.
Definition set_providerId v u :=
  let '(mk a b c d e f _ h i j k l m n o) := u in mk a b c d e f v h i j k l m n o.
Definition set_isActive v u :=
  let '(mk a b c d e f g _ i j k l m n o) := u in mk a b c d e f g v i j k l m n o.
Definition set_emailVerified v u :=
  let '(mk a b c d e f g h _ j k l m n o) := u in mk a b c d e f g h v j k l m n o.
Definition set_emailVerificationToken v u :=
  let '(mk a b c d e f g h i _ k l m n o) := u in mk a b c d e f g h i v k l m n o.
Definition set_resetPasswordToken v u :=
  let '(mk a b c d e f g h i j _ l m n o) := u in mk a b c d e f g h i j v l m n o.
Definition set_resetPasswordExpires v u :=
  let '(mk a b c d e f g h i j k _ m n o) := u in mk a b c d e f g h i j k v m n o.
Definition set_createdAt v u :=
  let '(mk a b c d e f g h i j k l _ n o) := u in mk a b c d e f g h i j k l v n o.
Definition set_updatedAt v u :=
  let '(mk a b c d e f g h i j k l m _ o) := u in mk a b c d e f g h i j k l m v o.
Definition set_lastLogin v u :=
  let '(mk a b c d e f g h i j k l m n _) := u in mk a b c d e f g h i j k l m n v.
End User.

#[global] Instance User_eq_dec : EqDecision User.t.
Proof. solve_decision. Defined.

(** ** Columns: how a row is read into an object and written from one *)

Definition nullable {A} (f : A → value) (o : option A) : value :=
  match o with Some a => f a | None => VNull end.

Definition as_uuid (v : value) : option uuid :=
  match v with VUuid i => Some i | _ => None end.
Definition as_string (v : value) : option string :=
  match v with VStr s => Some s | _ => None end.
Definition as_bool (v : value) : option bool :=
  match v with VBool b => Some b | _ => None end.
Definition as_date (v : value) : option Z :=
  match v with VDate t => Some t | _ => None end.
Definition as_provider (v : value) : option AuthProvider :=
  match v with VStr s => provider_of_string s | _ => None end.
Definition as_nullable {A} (f : value → option A) (v : value) : option (option A) :=
  match v with
  | VNull => Some None
  | _ => match f v with Some a => Some (Some a) | None => None end
  end.

(** A column has a property name, a reader, and a writer for the values of
    the column's type, [null] included when the column is nullable.  What
    reaches the writer is what the database made of the parameter
    ([bind_parameters]). *)
Record Column := {
  col_name : string;
  col_get : User.t → value;
  col_set : value → User.t → option User.t
}.

Definition column {A} (k : string) (get : User.t → A) (set : A → User.t → User.t)
    (enc : A → value) (dec : value → option A) : Column :=
  {| col_name := k;
     col_get := λ u, enc (get u);
     col_set := λ v u, match dec v with Some a => Some (set a u) | None => None end |}.

Definition columns : list Column := [
  column "id" User.id User.set_id VUuid as_uuid;
  column "email" User.email User.set_email VStr as_string;
  column "password" User.password User.set_password (nullable VStr) (as_nullable as_string);
  column "name" User.name User.set_name VStr as_string;
  column "profilePicture" User.profilePicture User.set_profilePicture
         (nullable VStr) (as_nullable as_string);
  column "authProvider" User.authProvider User.set_authProvider
         (λ p, VStr (provider_string p)) as_provider;
  column "providerId" User.providerId User.set_providerId
         (nullable VStr) (as_nullable as_string);
  column "isActive" User.isActive User.set_isActive VBool as_bool;
  column "emailVerified" User.emailVerified User.set_emailVerified VBool as_bool;
  column "emailVerificationToken" User.emailVerificationToken
         User.set_emailVerificationToken (nullable VStr) (as_nullable as_string);
  column "resetPasswordToken" User.resetPasswordToken User.set_resetPasswordToken
         (nullable VStr) (as_nullable as_string);
  column "resetPasswordExpires" User.resetPasswordExpires User.set_resetPasswordExpires
         (nullable VDate) (as_nullable as_date);
  column "createdAt" User.createdAt User.set_createdAt VDate as_date;
  column "updatedAt" User.updatedAt User.set_updatedAt VDate as_date;
  column "lastLogin" User.lastLogin User.set_lastLogin
         (nullable VDate) (as_nullable as_date)
].

Definition column_names : list string := col_name <$> columns.

Definition id_column := column "id" User.id User.set_id VUuid as_uuid.
Definition password_column :=
  column "password" User.password User.set_password (nullable VStr) (as_nullable as_string).

(** The entity a query without [select] hydrates: every column, SQL NULL
    read as [null]. *)
Definition toObject (u : User.t) : obj :=
  list_to_map ((λ c, (col_name c, col_get c u)) <$> columns).

(** The columns an entity defines, written into a row. *)
Fixpoint write_cols (cs : list Column) (e : obj) (u : User.t) : option User.t :=
  match cs with
  | [] => Some u
  | c :: cs =>
      match e !! col_name c with
      | None => write_cols cs e u
      | Some v =>
          match col_set c v u with
          | Some u' => write_cols cs e u'
          | None => None
          end
      end
  end.

Definition write_columns (e : obj) (u : User.t) : option User.t :=
  write_cols columns e u.

(** The SQL type of each column: [uuid], [varchar], [boolean],
    [timestamp] and the enum of providers. *)
Inductive ColType := TUuid | TText | TBool | TTimestamp | TProvider.

Definition has_type (ty : ColType) (v : value) : bool :=
  match ty, v with
  | TUuid, VUuid _ => true
  | TText, VStr _ => true
  | TBool, VBool _ => true
  | TTimestamp, VDate _ => true
  | TProvider, VStr s =>
      match provider_of_string s with Some _ => true | None => false end
  | _, _ => false
  end.

Definition column_types : list (string * ColType) := [
  ("id", TUuid); ("email", TText); ("password", TText); ("name", TText);
  ("profilePicture", TText); ("authProvider", TProvider); ("providerId", TText);
  ("isActive", TBool); ("emailVerified", TBool); ("emailVerificationToken", TText);
  ("resetPasswordToken", TText); ("resetPasswordExpires", TTimestamp);
  ("createdAt", TTimestamp); ("updatedAt", TTimestamp); ("lastLogin", TTimestamp)
].

Definition typed_or_null (ty : ColType) (v : value) : bool :=
  match v with
  | VNull => true
  | _ => has_type ty v
  end.

(** Every value an entity gives a column is of the column's type, or
    [null]. *)
Definition entity_typed (e : obj) : bool :=
  forallb (λ '(k, ty), match e !! k with
                       | None => true
                       | Some v => typed_or_null ty v
                       end) column_types.

(** The columns declared [nullable: true]. *)
Definition nullable_columns : list string :=
  ["password"; "profilePicture"; "providerId"; "emailVerificationToken";
   "resetPasswordToken"; "resetPasswordExpires"; "lastLogin"].

(** After an INSERT or an UPDATE was sent, [save] sets the nullable
    columns the entity leaves [undefined] to [null]. *)
Definition null_fill (e : obj) : obj :=
  e ∪ list_to_map ((λ k, (k, VNull)) <$> nullable_columns).

(** Does the entity define a column with a value other than the row's?
    This is the comparison [save] makes to decide what to send. *)
Definition differs (e : obj) (row : User.t) : bool :=
  existsb (λ c, match e !! col_name c with
                | Some v => negb (bool_decide (v = col_get c row))
                | None => false
                end) columns.

(** Is [updatedAt] among the columns the entity changes?  If not, the
    UPDATE sets it to the time of the write. *)
Definition sets_updatedAt (e : obj) (row : User.t) : bool :=
  match e !! "updatedAt" with
  | Some v => negb (bool_decide (v = VDate (User.updatedAt row)))
  | None => false
  end.

(** ** The store and the effects of a method *)

(** The [users] table, the next primary key the database will generate
    ([PrimaryGeneratedColumn('uuid')]) and the wall clock ([new Date()],
    [CreateDateColumn], [UpdateDateColumn]). *)
Record State := mkState {
  users : list User.t;
  nextId : uuid;
  clock : Z
}.

Inductive Exception :=
| UnauthorizedException (message : string)
| ConflictException (message : string)
| NotFoundException (message : string)
| RepositoryError (message : string).

Inductive Outcome (A : Type) :=
| Return (a : A)
| Throw (e : Exception).
Arguments Return {A} a.
Arguments Throw {A} e.

(** An [async] method: it runs to a value or to an exception, and what it
    wrote before throwing stays written. *)
Definition M (A : Type) : Type := State → Outcome A * State.

#[global] Instance M_ret : MRet M := λ A a st, (Return a, st).
#[global] Instance M_bind : MBind M := λ A B f m st,
  match m st with
  | (Return a, st') => f a st'
  | (Throw e, st') => (Throw e, st')
  end.

Definition throw {A} (e : Exception) : M A := λ st, (Throw e, st).
Definition get_state : M State := λ st, (Return st, st).

(** ** The database *)

(** What PostgreSQL does that the services do not control.
    - [pg_input ty v]: the value stored when the parameter [v] is sent to
      a column of type [ty], or [None] when the text is no input of that
      type and the statement fails.  A value of the column's type is
      stored as it is; a value of another type is converted (the string
      ['false'] sent to a [boolean] column is stored as the boolean).
    - [pg_scan rows]: the rows in the order a query without ORDER BY
      returns them, which is some order of the table.
    - [pg_uuid text]: the uuid a text denotes, if it denotes one. *)
Class Postgres := {
  pg_input : ColType → value → option value;
  pg_input_typed : ∀ ty v, has_type ty v = true → pg_input ty v = Some v;
  pg_scan : list User.t → list User.t;
  pg_scan_perm : ∀ rows, pg_scan rows ≡ₚ rows;
  pg_uuid : string → option uuid
}.

(** ** The repository ([Repository<User>]) *)

Definition has_id (i : uuid) (u : User.t) : bool := (User.id u =? i)%N.

(** [findOne({ where: { id } })] *)
Definition find_row (i : uuid) (st : State) : option User.t :=
  find (has_id i) (users st).

(** The unique constraint on [email]: is [e] held by a row other than the
    rows keyed [except]? *)
Definition email_taken (e : string) (except : option uuid) (st : State) : bool :=
  existsb (λ u, (User.email u =? e) &&
                match except with Some i => negb (has_id i u) | None => true end)
          (users st).

(** The row an INSERT starts from: column defaults, NULL elsewhere, both
    timestamps at the time of the insert. *)
Definition blank (i : uuid) (now : Z) : User.t :=
  User.mk i "" None "" None LOCAL None true false None None None now now None.

(** The properties the database fills in and the entity reads back after
    an INSERT: generated columns and columns with a default. *)
Definition generated : list string :=
  ["id"; "authProvider"; "isActive"; "emailVerified"; "createdAt"; "updatedAt"].

(** The parameters of a statement as the database takes them: SQL NULL
    for [null], the input conversion of the column's type otherwise. *)
Definition coerce_value `{Postgres} (ty : ColType) (v : value) : option value :=
  match v with
  | VNull => Some VNull
  | _ => pg_input ty v
  end.

Fixpoint coerce_cols `{Postgres} (cs : list (string * ColType)) (e : obj)
    : option obj :=
  match cs with
  | [] => Some e
  | (k, ty) :: cs =>
      match e !! k with
      | None => coerce_cols cs e
      | Some v =>
          match coerce_value ty v with
          | Some v' => coerce_cols cs (<[k := v']> e)
          | None => None
          end
      end
  end.

Definition bind_parameters `{Postgres} (e : obj) : option obj :=
  coerce_cols column_types e.

(** The columns an entity defines, sent to the database and written into
    a row; [None] when the database rejects the statement. *)
Definition persist `{Postgres} (e : obj) (u : User.t) : option User.t :=
  match bind_parameters e with
  | Some e' => write_columns e' u
  | None => None
  end.

(** The entity [save] returns keeps its own properties, reads back what
    the database generated and has [null] for the nullable columns it
    left undefined. *)
Definition insert_row `{Postgres} (i : uuid) (e : obj) : M obj := λ st,
  match e !! "email", e !! "name" with
  | Some _, Some _ =>
      match persist e (blank i (clock st)) with
      | Some row =>
          if email_taken (User.email row) None st
          then (Throw (RepositoryError "duplicate key value violates unique constraint"), st)
          else (Return (null_fill (e ∪ pick generated (toObject row))),
                mkState (users st ++ [row]) (N.max (nextId st) (N.succ i)) (clock st))
      | None => (Throw (RepositoryError "invalid input value"), st)
      end
  | _, _ => (Throw (RepositoryError "null value violates not-null constraint"), st)
  end.

Definition replace_row (row : User.t) (st : State) : State :=
  mkState ((λ r, if has_id (User.id row) r then row else r) <$> users st)
          (nextId st) (clock st).

(** Saving an entity whose primary key names [row]: nothing is sent, and
    the entity is returned as it is, when no column it defines differs
    from the row; otherwise the columns the entity defines are written,
    [updatedAt] moves to the time of the write unless the entity changes
    it, and the entity returned reads [updatedAt] back and has [null] for
    the nullable columns it left undefined. *)
Definition update_row `{Postgres} (row : User.t) (e : obj) : M obj := λ st,
  if negb (differs e row) then (Return e, st)
  else
    match persist e row with
    | Some row' =>
        let row'' := if sets_updatedAt e row then row'
                     else User.set_updatedAt (clock st) row' in
        if email_taken (User.email row'') (Some (User.id row)) st
        then (Throw (RepositoryError "duplicate key value violates unique constraint"), st)
        else (Return (null_fill (<["updatedAt" := VDate (User.updatedAt row'')]> e)),
              replace_row row'' st)
    | None => (Throw (RepositoryError "invalid input value"), st)
    end.

(** [save(entity)]: update the row the entity's primary key names, insert
    otherwise, under a fresh key when the entity has none. *)
Definition repo_save `{Postgres} (e : obj) : M obj := λ st,
  match e !! "id" with
  | Some (VUuid i) =>
      match find_row i st with
      | Some row => update_row row e st
      | None => insert_row i e st
      end
  | Some VNull | None => insert_row (nextId st) (delete "id" e) st
  | Some _ => (Throw (RepositoryError "invalid input syntax for type uuid"), st)
  end.

(** A row whose [lastLogin] was set at time [now]: an UPDATE also moves
    [updatedAt]. *)
Definition refreshed (now : Z) (r : User.t) : User.t :=
  User.set_updatedAt now (User.set_lastLogin (Some now) r).

(** [update(id, { lastLogin: new Date() })], an UPDATE by primary key. *)
Definition repo_update_lastLogin (i : uuid) : M unit := λ st,
  (Return tt,
   mkState ((λ r, if has_id i r then refreshed (clock st) r else r) <$> users st)
           (nextId st) (clock st)).

(** [remove(entity)] *)
Definition repo_remove (i : uuid) : M unit := λ st,
  (Return tt, mkState (filter (λ r, has_id i r = false) (users st)) (nextId st) (clock st)).

(** ** External libraries: bcrypt and the JWT service *)

(** [bcrypt.hash(data, rounds)] and [bcrypt.compare(data, encrypted)]; the
    empty string is no hash, so nothing compares equal to it. *)
Class PasswordHasher := {
  bcrypt_hash : string → nat → string;
  bcrypt_compare : string → string → bool;
  bcrypt_compare_empty : ∀ data, bcrypt_compare data "" = false
}.

(** The claims object a token is signed for. *)
Definition claims (email : string) (sub : uuid) : obj :=
  obj_literal [("email", Some (VStr email)); ("sub", Some (VUuid sub))].

(** [JwtService.sign(payload)]: the compact signed token for a claims
    object.  The issued-at and expiry claims the library adds are not part
    of the payload the service builds. *)
Class JwtService := {
  jwt_sign : obj → string
}.

(** ** Payloads *)

(** users/dto/create-user.dto.ts *)
Module CreateUserDto.
Record t := mk {
  email : string;
  password : option string;
  name : string;
  profilePicture : option string;
  authProvider : option AuthProvider;
  providerId : option string
}.
End CreateUserDto.

(** Modelled from the spec: the declaration of RegisterDto
    (auth/dto/register.dto.ts) is not among the sources; section 6 gives
    the registration payload as [{email, password, name, profilePicture?}]. *)
Module RegisterDto.
Record t := mk {
  email : string;
  password : string;
  name : string;
  profilePicture : option string
}.

(** A RegisterDto passed where a CreateUserDto is expected. *)
Definition as_create (r : t) : CreateUserDto.t :=
  CreateUserDto.mk (email r) (Some (password r)) (name r) (profilePicture r) None None.
End RegisterDto.

(** The interface OAuthUserData of auth.service.ts.  [provider] is declared
    a string and used only through the cast [provider as AuthProvider]. *)
Module OAuthUserData.
Record t := mk {
  email : string;
  name : string;
  profilePicture : option string;
  provider : AuthProvider;
  providerId : string
}.
End OAuthUserData.

(** [{ user, access_token }] *)
Record AuthResponse := mkAuthResponse {
  user : obj;
  access_token : string
}.

(** ** UsersService (users/users.service.ts) *)

(** [findOne({ where: { email } })]: the first row with that exact email. *)
Definition row_by_email (email : string) (st : State) : option User.t :=
  find (λ u, User.email u =? email) (users st).

(** [findOne({ where: { authProvider: provider, providerId } })] *)
Definition row_by_provider (provider : AuthProvider) (providerId : string)
    (st : State) : option User.t :=
  find (λ u, bool_decide (User.authProvider u = provider) &&
             bool_decide (User.providerId u = Some providerId))
       (users st).

(** The [select] list of [findAll] and [findById]. *)
Definition profile_select : list string :=
  ["id"; "email"; "name"; "profilePicture"; "authProvider"; "isActive"; "createdAt"].

Definition saltRounds : nat := 12.

Section UsersService.
Context `{PasswordHasher} `{Postgres}.

Definition findByEmail (email : string) : M (option User.t) :=
  st ← get_state; mret (row_by_email email st).

Definition findByProviderData (provider : AuthProvider) (providerId : string)
    : M (option User.t) :=
  st ← get_state; mret (row_by_provider provider providerId st).

Definition hashPassword (password : string) : M string :=
  mret (bcrypt_hash password saltRounds).

Definition validatePassword (plainPassword hashedPassword : string) : M bool :=
  mret (bcrypt_compare plainPassword hashedPassword).

(** [new User()] is the object that holds the properties assigned to it;
    [authProvider] falls back to LOCAL (every member of the enum is a
    non-empty string, hence truthy); the password is hashed when truthy. *)
Definition create (createUserDto : CreateUserDto.t) : M obj :=
  existingUser ← findByEmail (CreateUserDto.email createUserDto);
  match existingUser with
  | Some _ => throw (ConflictException "User with this email already exists")
  | None =>
      let user := obj_literal [
        ("email", Some (VStr (CreateUserDto.email createUserDto)));
        ("name", Some (VStr (CreateUserDto.name createUserDto)));
        ("profilePicture", VStr <$> CreateUserDto.profilePicture createUserDto);
        ("authProvider",
         Some (VStr (provider_string
                       (default LOCAL (CreateUserDto.authProvider createUserDto)))));
        ("providerId", VStr <$> CreateUserDto.providerId createUserDto)
      ] in
      user ← match CreateUserDto.password createUserDto with
             | Some password =>
                 if truthy password
                 then hashed ← hashPassword password;
                      mret (<["password" := VStr hashed]> user)
                 else mret user
             | None => mret user
             end;
      repo_save user
  end.

(** [find] without an order: the rows come as the database scans them. *)
Definition findAll : M (list obj) :=
  st ← get_state;
  mret ((λ u, pick profile_select (toObject u)) <$> pg_scan (users st)).

(** [id] is a key the database has read as a uuid. *)
Definition findById (id : uuid) : M obj :=
  st ← get_state;
  match find_row id st with
  | None => throw (NotFoundException "User not found")
  | Some user => mret (pick profile_select (toObject user))
  end.

(** The declaration of UpdateUserDto (users/dto/update-user.dto.ts) is not
    among the sources; [Object.assign] copies whatever own properties the
    payload has, so the payload is an object. *)
Definition update (id : uuid) (updateUserDto : obj) : M obj :=
  user ← findById id;
  let user := object_assign user updateUserDto in
  repo_save user.

Definition updateLastLogin (id : uuid) : M unit :=
  repo_update_lastLogin id.

Definition remove (id : uuid) : M unit :=
  user ← findById id;
  match user !! "id" with
  | Some (VUuid i) => repo_remove i
  | _ => throw (RepositoryError "entity has no primary key")
  end.
End UsersService.

(** ** UsersController (users/users.controller.ts) *)

(** The [:id] of a route is the text the client sent, handed to the
    service as it came; the query compares it with the [uuid] column, and
    the database refuses a text that is no uuid. *)
Definition with_route_id `{Postgres} {A} (id : string) (query : uuid → M A) : M A :=
  match pg_uuid id with
  | Some i => query i
  | None => throw (RepositoryError "invalid input syntax for type uuid")
  end.

Module UsersController.
Section Handlers.
Context `{PasswordHasher} `{Postgres}.

(** [GET /users/:id] *)
Definition findOne (id : string) : M obj :=
  with_route_id id findById.

(** [PATCH /users/:id] *)
Definition update (id : string) (updateUserDto : obj) : M obj :=
  with_route_id id (λ i, update i updateUserDto).

(** [DELETE /users/:id] *)
Definition remove (id : string) : M unit :=
  with_route_id id remove.
End Handlers.
End UsersController.

(** ** AuthService (auth/auth.service.ts) *)

Section AuthService.
Context `{PasswordHasher} `{JwtService} `{Postgres}.

(** [null] is [None]. *)
Definition validateUser (email password : string) : M (option obj) :=
  user ← findByEmail email;
  match user with
  | None => mret None
  | Some user =>
      match User.password user with
      | None => mret None
      | Some hashed =>
          if negb (truthy hashed) then mret None
          else
            isPasswordValid ← validatePassword password hashed;
            if negb isPasswordValid then mret None
            else if negb (User.isActive user)
            then throw (UnauthorizedException "Account is deactivated")
            else mret (Some (omit "password" (toObject user)))
      end
  end.

Definition validateOAuthUser (userData : OAuthUserData.t) : M obj :=
  let '(OAuthUserData.mk email name profilePicture provider providerId) := userData in
  user ← findByProviderData provider providerId;
  match user with
  | Some user =>
      updateLastLogin (User.id user);;
      mret (toObject user)
  | None =>
      user ← findByEmail email;
      match user with
      | Some _ =>
          throw (ConflictException
            "An account with this email already exists. Please sign in with your password.")
      | None =>
          create (CreateUserDto.mk email None name profilePicture
                                   (Some provider) (Some providerId))
      end
  end.

Definition register (registerDto : RegisterDto.t) : M AuthResponse :=
  user ← create (RegisterDto.as_create registerDto);
  let userWithoutPassword := omit "password" user in
  let payload := obj_literal [("email", user !! "email"); ("sub", user !! "id")] in
  let access_token := jwt_sign payload in
  mret (mkAuthResponse userWithoutPassword access_token).

(** [user] is the object the guard left on the request: the view
    [validateUser] returned or the entity [validateOAuthUser] returned.
    [updateLastLogin] needs its [id] to be a key. *)
Definition login (user : obj) : M AuthResponse :=
  match user !! "id" with
  | Some (VUuid id) => updateLastLogin id
  | _ => throw (RepositoryError "invalid criteria for update")
  end;;
  let payload := obj_literal [("email", user !! "email"); ("sub", user !! "id")] in
  let access_token := jwt_sign payload in
  let userWithoutPassword := omit "password" user in
  mret (mkAuthResponse userWithoutPassword access_token).

Definition getProfile (userId : uuid) : M obj :=
  findById userId.
End AuthService.

(** ** AuthController (auth/auth.controller.ts) *)

(** [process.env.FRONTEND_URL || 'http://localhost:3001'], the variable
    being unset ([None]) or set to a string. *)
Definition frontend_url (FRONTEND_URL : option string) : string :=
  match FRONTEND_URL with
  | Some url => if truthy url then url else "http://localhost:3001"
  | None => "http://localhost:3001"
  end.

(** The handler of [GET /auth/google/callback]: [req.user] is the user the
    guard resolved; the result is the URL handed to [res.redirect]. *)
Definition googleAuthRedirect `{JwtService} `{Postgres}
    (FRONTEND_URL : option string) (user : obj) : M string :=
  result ← login user;
  mret (frontend_url FRONTEND_URL +:+ "/auth/callback?token=" +:+ access_token result).

(** ** Executable stand-ins for the libraries

    Used to run the services on concrete stores. *)

Module Demo.
(** A hash recognisable as such: the password behind a fixed prefix. *)
#[export] Instance hasher : PasswordHasher := {|
  bcrypt_hash := λ p _, "$2b$12$" +:+ p;
  bcrypt_compare := λ p h, ("$2b$12$" +:+ p) =? h;
  bcrypt_compare_empty := λ _, eq_refl
|}.

(** A token: the subject in unary, a dot, the email. *)
Fixpoint encode (n : nat) (email : string) : string :=
  match n with
  | O => String "." email
  | S n => String "1" (encode n email)
  end.

Fixpoint decode (token : string) : option (nat * string) :=
  match token with
  | EmptyString => None
  | String c rest =>
      if Ascii.eqb c "." then Some (O, rest)
      else match decode rest with
           | Some (n, email) => Some (S n, email)
           | None => None
           end
  end.

Definition sign (payload : obj) : string :=
  match payload !! "sub", payload !! "email" with
  | Some (VUuid i), Some (VStr e) => encode (N.to_nat i) e
  | _, _ => ""
  end.

Definition verify (token : string) : option obj :=
  match decode token with
  | Some (n, e) => Some (claims e (N.of_nat n))
  | None => None
  end.

#[export] Instance jwt : JwtService := {|
  jwt_sign := sign
|}.

(** The input conversions that matter here: a [boolean] column takes the
    lower-case spellings of a truth value, a [varchar] column takes a
    boolean as its spelling, and a value of the column's type is stored
    as it is. *)
Definition input (ty : ColType) (v : value) : option value :=
  match ty, v with
  | TBool, VStr s =>
      if bool_decide (s ∈ ["true"; "t"; "yes"; "y"; "on"; "1"]) then Some (VBool true)
      else if bool_decide (s ∈ ["false"; "f"; "no"; "n"; "off"; "0"])
      then Some (VBool false)
      else None
  | TText, VBool b => Some (VStr (if b then "true" else "false"))
  | _, _ => if has_type ty v then Some v else None
  end.

(** A scan that returns the rows by the time of their last write, so that
    a row just written comes last. *)
Definition written_before (a b : User.t) : Prop :=
  (User.updatedAt a ≤ User.updatedAt b)%Z.

#[export] Instance written_before_dec a b : Decision (written_before a b).
Proof. unfold written_before. apply _. Defined.

Definition scan (rows : list User.t) : list User.t :=
  merge_sort written_before rows.

(** A uuid written as a decimal number. *)
Fixpoint digits (s : string) (acc : N) : option N :=
  match s with
  | EmptyString => Some acc
  | String c s =>
      let n := N_of_ascii c in
      if ((48 <=? n) && (n <=? 57))%N then digits s (10 * acc + (n - 48))%N
      else None
  end.

Definition uuid_of_text (s : string) : option uuid :=
  match s with
  | EmptyString => None
  | _ => digits s 0%N
  end.

#[export, refine] Instance postgres : Postgres := {|
  pg_input := input;
  pg_scan := scan;
  pg_uuid := uuid_of_text
|}.
Proof.
  - intros ty v Hty. destruct ty, v; try discriminate Hty; try reflexivity.
    unfold input. rewrite Hty. reflexivity.
  - intros rows. apply merge_sort_Permutation.
Defined.

Definition empty : State := mkState [] 1%N 1000%Z.

(** A local account with a password hash and a pending reset token. *)
Definition alice : User.t :=
  User.mk 1%N "alice@example.com" (Some "$2b$12$correct horse") "Alice" None LOCAL None
          true false (Some "verify-7f3a") (Some "reset-91c2") (Some 5000%Z)
          100%Z 100%Z None.

(** A deactivated local account. *)
Definition bob : User.t :=
  User.mk 2%N "bob@example.com" (Some "$2b$12$hunter22") "Bob" None LOCAL None
          false false None None None 200%Z 200%Z None.

(** An account created by a first Google sign-in. *)
Definition carol : User.t :=
  User.mk 3%N "carol@example.com" None "Carol" (Some "https://img/c.png") GOOGLE
          (Some "g-1001") true false None None None 300%Z 300%Z None.

Definition store : State := mkState [alice; bob; carol] 4%N 1000%Z.
End Demo.

(** A store in which an account with a linked Google identity has been
    deactivated. *)
Definition dan : User.t :=
  User.mk 5%N "dan@example.com" None "Dan" None GOOGLE (Some "g-4004")
          false false None None None 400%Z 400%Z None.

Definition suspended : State := mkState [dan] 6%N 1000%Z.

(** ** Rows and entities the services produce *)

(** The row [create] inserts for a payload: the payload's fields, the hash
    of a non-empty password, the column defaults elsewhere. *)
Definition new_row `{PasswordHasher} (dto : CreateUserDto.t) (st : State) : User.t :=
  User.mk (nextId st) (CreateUserDto.email dto)
    (match CreateUserDto.password dto with
     | Some p => if truthy p then Some (bcrypt_hash p saltRounds) else None
     | None => None
     end)
    (CreateUserDto.name dto) (CreateUserDto.profilePicture dto)
    (default LOCAL (CreateUserDto.authProvider dto)) (CreateUserDto.providerId dto)
    true false None None None (clock st) (clock st) None.

(** The payload [validateOAuthUser] hands to [create]. *)
Definition oauth_create (d : OAuthUserData.t) : CreateUserDto.t :=
  CreateUserDto.mk (OAuthUserData.email d) None (OAuthUserData.name d)
    (OAuthUserData.profilePicture d) (Some (OAuthUserData.provider d))
    (Some (OAuthUserData.providerId d)).

(** The store after [row] has been inserted under the next generated key. *)
Definition inserted (row : User.t) (st : State) : State :=
  mkState (users st ++ [row]) (N.succ (nextId st)) (clock st).

(** ** The core as a request handler, and where rows come from *)

(** The operations of the authentication core (AuthService). *)
Inductive Request :=
| ValidateUser (email password : string)
| ValidateOAuthUser (userData : OAuthUserData.t)
| Register (registerDto : RegisterDto.t)
| Login (user : obj)
| GetProfile (userId : uuid).

(** The store at wall-clock time [t]. *)
Definition at_time (t : Z) (st : State) : State :=
  mkState (users st) (nextId st) t.

(** The store after a request served at time [t]. *)
Definition serve `{PasswordHasher} `{JwtService} `{Postgres}
    (t : Z) (rq : Request) (st : State) : State :=
  match rq with
  | ValidateUser email password => (validateUser email password (at_time t st)).2
  | ValidateOAuthUser userData => (validateOAuthUser userData (at_time t st)).2
  | Register registerDto => (register registerDto (at_time t st)).2
  | Login user => (login user (at_time t st)).2
  | GetProfile userId => (getProfile userId (at_time t st)).2
  end.

(** The call a row was created by. *)
Inductive Origin :=
| ByRegistration
| ByOAuth (provider : AuthProvider).

(** The row a step added to the table, if it added one. *)
Definition appended (st st' : State) : option User.t :=
  if (length (users st) <? length (users st'))%nat then last (users st') else None.

(** The record of origins, kept beside the store: a step that adds a row
    enters the row's key with the call that added it. *)
Definition record (rq : Request) (st st' : State) (origins : gmap N Origin)
    : gmap N Origin :=
  match rq, appended st st' with
  | Register _, Some row => <[User.id row := ByRegistration]> origins
  | ValidateOAuthUser userData, Some row =>
      <[User.id row := ByOAuth (OAuthUserData.provider userData)]> origins
  | _, _ => origins
  end.

Fixpoint run_core `{PasswordHasher} `{JwtService} `{Postgres}
    (rqs : list (Z * Request)) (st : State) (origins : gmap N Origin)
    : State * gmap N Origin :=
  match rqs with
  | [] => (st, origins)
  | (t, rq) :: rqs =>
      let st' := serve t rq st in
      run_core rqs st' (record rq (at_time t st) st' origins)
  end.

(** The invariant of the user store: generated keys are unused, a row with
    a password hash was created by registration, and a row created by
    OAuth resolution has no hash, is active and carries the provider of
    the call. *)
Definition store_invariant (st : State) (origins : gmap N Origin) : Prop :=
  ∀ u, u ∈ users st →
    (User.id u < nextId st)%N ∧
    (User.password u ≠ None → origins !! User.id u = Some ByRegistration) ∧
    (∀ p, origins !! User.id u = Some (ByOAuth p) →
       User.password u = None ∧ User.isActive u = true ∧ User.authProvider u = p).

(** ** Well-formed stores *)

(** What the table's constraints and the key generator guarantee: primary
    keys are unique, emails are unique ([@Column({ unique: true })]), and
    no stored key is one the generator has yet to hand out. *)
Definition well_formed (st : State) : Prop :=
  NoDup (User.id <$> users st) ∧
  NoDup (User.email <$> users st) ∧
  ∀ u, u ∈ users st → (User.id u < nextId st)%N.

(** * Properties *)

(** ** Lookups *)

Lemma row_by_email_Some email st u :
  row_by_email email st = Some u → u ∈ users st ∧ User.email u = email.
Proof.
  unfold row_by_email. intros Hf. apply find_some in Hf as [Hin Heq].
  split; [by apply list_elem_of_In | by apply String.eqb_eq].
Qed.

Lemma row_by_email_None email st :
  row_by_email email st = None ↔ ∀ u, u ∈ users st → User.email u ≠ email.
Proof.
  unfold row_by_email. split.
  - intros Hf u Hin Heq. apply list_elem_of_In in Hin.
    pose proof (find_none _ _ Hf u Hin) as Hn. simpl in Hn.
    apply String.eqb_neq in Hn. done.
  - intros Hall. destruct (find _ _) as [u|] eqn:Hf; [|done].
    apply find_some in Hf as [Hin Heq]. apply String.eqb_eq in Heq.
    apply list_elem_of_In in Hin. by destruct (Hall u Hin).
Qed.

Lemma email_taken_free email st :
  row_by_email email st = None → email_taken email None st = false.
Proof.
  unfold row_by_email, email_taken. induction (users st) as [|r rows IH]; simpl; [done|].
  destruct (User.email r =? email); [done | auto].
Qed.

Lemma row_by_email_inserted email st row :
  row_by_email email st = None →
  User.email row = email →
  row_by_email email (inserted row st) = Some row.
Proof.
  unfold row_by_email. destruct st as [us n c]. simpl. intros Hn He.
  induction us as [|r us IH]; simpl in *.
  - apply String.eqb_eq in He. by rewrite He.
  - destruct (User.email r =? email); [done | auto].
Qed.

Lemma find_row_Some i st u : find_row i st = Some u → u ∈ users st ∧ User.id u = i.
Proof.
  unfold find_row, has_id. intros Hf. apply find_some in Hf as [Hin Heq].
  split; [by apply list_elem_of_In | by apply N.eqb_eq].
Qed.

Lemma find_row_None i st :
  find_row i st = None ↔ ∀ u, u ∈ users st → User.id u ≠ i.
Proof.
  unfold find_row, has_id. split.
  - intros Hf u Hin Heq. apply list_elem_of_In in Hin.
    pose proof (find_none _ _ Hf u Hin) as Hn. simpl in Hn.
    apply N.eqb_neq in Hn. done.
  - intros Hall. destruct (find _ _) as [u|] eqn:Hf; [|done].
    apply find_some in Hf as [Hin Heq]. apply N.eqb_eq in Heq.
    apply list_elem_of_In in Hin. by destruct (Hall u Hin).
Qed.

(** Objects are compared by their properties, never unfolded. *)
Arguments toObject : simpl never.
Arguments omit : simpl never.
Arguments pick : simpl never.
Arguments obj_literal : simpl never.
Arguments object_assign : simpl never.
Arguments write_columns : simpl never.
Arguments null_fill : simpl never.
Arguments persist : simpl never.
Arguments repo_save : simpl never.
Arguments claims : simpl never.

(** Unfolding a method down to the store it reads. *)
Ltac run :=
  unfold validateUser, validateOAuthUser, register, login, getProfile,
    update, create, findById, updateLastLogin, findByEmail, findByProviderData,
    hashPassword, validatePassword, throw, get_state;
  unfold mbind, M_bind, mret, M_ret; simpl.

Section LocalCredentials.
Context `{PasswordHasher} `{JwtService} `{Postgres}.

(** C1. Local credential validation answers [null], and leaves the store
    as it was, in each of the three cases: no user has the email, the
    user found has no password hash, the password does not verify
    against the stored hash.  The three answers are the same value. *)
Theorem validateUser_invalid_credentials (email password : string) (st : State) :
  row_by_email email st = None ∨
  (∃ u, row_by_email email st = Some u ∧ User.password u = None) ∨
  (∃ u hashed, row_by_email email st = Some u ∧ User.password u = Some hashed ∧
               bcrypt_compare password hashed = false) →
  validateUser email password st = (Return None, st).
Proof.
  intros [Hnone | [(u & Hu & Hp) | (u & hashed & Hu & Hp & Hc)]]; run.
  - by rewrite Hnone.
  - by rewrite Hu, Hp.
  - rewrite Hu, Hp. destruct (truthy hashed); simpl; [|done]. by rewrite Hc.
Qed.

(** C4. A user whose password verifies but whose [isActive] is false gets
    the exception "Account is deactivated", which is not the [null] of
    invalid credentials; the flag is looked at only after the password
    has verified, so the same user with a wrong password gets [null]. *)
Theorem validateUser_deactivated (email password : string) (st : State) (u : User.t)
    (hashed : string) :
  row_by_email email st = Some u →
  User.password u = Some hashed →
  User.isActive u = false →
  (bcrypt_compare password hashed = true →
     validateUser email password st
     = (Throw (UnauthorizedException "Account is deactivated"), st)) ∧
  (bcrypt_compare password hashed = false →
     validateUser email password st = (Return None, st)) ∧
  (Throw (UnauthorizedException "Account is deactivated") : Outcome (option obj))
    ≠ Return None.
Proof.
  intros Hu Hp Ha. split_and!; [| |done].
  - intros Hc. run. rewrite Hu, Hp.
    destruct (truthy hashed) eqn:Ht; simpl.
    + by rewrite Hc, Ha.
    + unfold truthy in Ht. apply negb_false_iff, String.eqb_eq in Ht. subst hashed.
      by rewrite bcrypt_compare_empty in Hc.
  - intros Hc. run. rewrite Hu, Hp. destruct (truthy hashed); simpl; [|done].
    by rewrite Hc.
Qed.
End LocalCredentials.

(** ** Saving and creating *)

Section Parameters.
Context `{Postgres}.

Lemma coerce_value_typed (ty : ColType) (v : value) :
  typed_or_null ty v = true → coerce_value ty v = Some v.
Proof. destruct v; simpl; intros Hv; [done | by apply pg_input_typed ..]. Qed.

Lemma coerce_cols_typed (cs : list (string * ColType)) (e : obj) :
  forallb (λ '(k, ty), match e !! k with
                       | None => true
                       | Some v => typed_or_null ty v
                       end) cs = true →
  coerce_cols cs e = Some e.
Proof.
  induction cs as [|[k ty] cs IH]; [done|].
  cbn [forallb coerce_cols]. intros [Hk Hcs]%andb_true_iff.
  destruct (e !! k) as [v|] eqn:Hv; [|auto].
  rewrite coerce_value_typed by done.
  rewrite insert_id by done. auto.
Qed.

(** An entity whose values are of their columns' types is written as it
    is. *)
Lemma persist_typed (e : obj) (u : User.t) :
  entity_typed e = true → persist e u = write_columns e u.
Proof.
  intros Ht. unfold persist, bind_parameters. by rewrite coerce_cols_typed.
Qed.

(** What the database takes for each property of an entity. *)
Lemma coerce_cols_lookup (cs : list (string * ColType)) (e e' : obj) :
  NoDup cs.*1 → coerce_cols cs e = Some e' →
  (∀ k ty, (k, ty) ∈ cs →
     match e !! k with
     | Some v => ∃ v', coerce_value ty v = Some v' ∧ e' !! k = Some v'
     | None => e' !! k = None
     end) ∧
  (∀ k, k ∉ cs.*1 → e' !! k = e !! k).
Proof.
  revert e. induction cs as [|[k0 ty0] cs IH]; intros e Hnd Hc.
  - injection Hc as <-. split; [|done]. intros k ty Hin.
    by apply elem_of_nil in Hin.
  - rewrite fmap_cons in Hnd. apply NoDup_cons in Hnd as [Hfresh Hnd].
    cbn [coerce_cols] in Hc. cbn [fst] in Hfresh.
    assert (Hne : ∀ k ty, (k, ty) ∈ cs → k ≠ k0).
    { intros k ty Hin ->. apply Hfresh, list_elem_of_fmap. by exists (k0, ty). }
    destruct (e !! k0) as [v|] eqn:Hv.
    + destruct (coerce_value ty0 v) as [v'|] eqn:Hv'; [|done].
      destruct (IH _ Hnd Hc) as [Ha Hb]. split.
      * intros k ty [[= -> ->] | Hin]%elem_of_cons.
        -- rewrite Hv. exists v'. by rewrite (Hb _ Hfresh), lookup_insert_eq.
        -- specialize (Ha _ _ Hin). rewrite lookup_insert_ne in Ha; [done|].
           intros ->. by eapply Hne.
      * intros k Hk. rewrite fmap_cons, not_elem_of_cons in Hk. destruct Hk as [Hk0 Hk].
        cbn [fst] in Hk0. by rewrite (Hb _ Hk), lookup_insert_ne.
    + destruct (IH _ Hnd Hc) as [Ha Hb]. split.
      * intros k ty [[= -> ->] | Hin]%elem_of_cons.
        -- by rewrite (Hb _ Hfresh), Hv.
        -- by apply Ha.
      * intros k Hk. rewrite fmap_cons, not_elem_of_cons in Hk. destruct Hk as [_ Hk].
        by apply Hb.
Qed.

Lemma column_types_NoDup : NoDup column_types.*1.
Proof. apply (bool_decide_unpack _). by vm_compute. Qed.

Lemma bind_parameters_lookup (e e' : obj) (k : string) (ty : ColType) :
  bind_parameters e = Some e' → (k, ty) ∈ column_types →
  match e !! k with
  | Some v => ∃ v', coerce_value ty v = Some v' ∧ e' !! k = Some v'
  | None => e' !! k = None
  end.
Proof.
  intros Hb. by apply (coerce_cols_lookup _ _ _ column_types_NoDup Hb).
Qed.

Lemma repo_save_insert (e : obj) (st : State) (row : User.t) (ve vn : value) :
  e !! "id" = None →
  e !! "email" = Some ve →
  e !! "name" = Some vn →
  entity_typed e = true →
  write_columns e (blank (nextId st) (clock st)) = Some row →
  email_taken (User.email row) None st = false →
  repo_save e st
  = (Return (null_fill (e ∪ pick generated (toObject row))), inserted row st).
Proof.
  intros Hid He Hn Hty Hw Ht. unfold repo_save, insert_row, inserted.
  rewrite Hid, (delete_id _ _ Hid), He, Hn, (persist_typed _ _ Hty), Hw, Ht.
  by replace (N.max (nextId st) (N.succ (nextId st))) with (N.succ (nextId st)) by lia.
Qed.
End Parameters.

Section Create.
Context `{PasswordHasher} `{Postgres}.

Lemma create_conflict (dto : CreateUserDto.t) (st : State) :
  is_Some (row_by_email (CreateUserDto.email dto) st) →
  create dto st = (Throw (ConflictException "User with this email already exists"), st).
Proof. intros [u Hu]. run. by rewrite Hu. Qed.

(** On a free email [create] inserts [new_row] and returns an entity that
    carries the generated key, the email, the hash when the row has one
    and [null] otherwise, and [null] for both tokens. *)
Lemma create_fresh (dto : CreateUserDto.t) (st : State) :
  row_by_email (CreateUserDto.email dto) st = None →
  ∃ e, create dto st = (Return e, inserted (new_row dto st) st) ∧
       e !! "id" = Some (VUuid (nextId st)) ∧
       e !! "email" = Some (VStr (CreateUserDto.email dto)) ∧
       e !! "password" = Some (nullable VStr (User.password (new_row dto st))) ∧
       e !! "emailVerificationToken" = Some VNull ∧
       e !! "resetPasswordToken" = Some VNull.
Proof.
  intros Hfree. run. rewrite Hfree. unfold new_row.
  destruct dto as [email pw name pic ap pid]; simpl in *.
  apply email_taken_free in Hfree.
  destruct pw as [pw|]; [destruct (truthy pw)|];
    destruct pic, ap as [[]|], pid; simpl;
    (eexists; split;
     [ eapply repo_save_insert; [reflexivity .. | exact Hfree]
     | split_and!; reflexivity ]).
Qed.
End Create.

(** ** OAuth identity resolution *)

Section OAuth.
Context `{PasswordHasher} `{Postgres}.

Lemma refreshed_in (i : uuid) (st : State) (u : User.t) :
  u ∈ users st → User.id u = i →
  refreshed (clock st) u ∈ users (updateLastLogin i st).2.
Proof.
  intros Hin Hid. unfold updateLastLogin, repo_update_lastLogin. simpl.
  apply list_elem_of_fmap. exists u. split; [|done].
  unfold has_id. rewrite Hid, N.eqb_refl. done.
Qed.

Lemma row_by_provider_Some p pid st u :
  row_by_provider p pid st = Some u →
  u ∈ users st ∧ User.authProvider u = p ∧ User.providerId u = Some pid.
Proof.
  unfold row_by_provider. intros Hf. apply find_some in Hf as [Hin Heq].
  apply andb_true_iff in Heq as [Hp Hi].
  apply bool_decide_eq_true in Hp, Hi. split; [by apply list_elem_of_In | done].
Qed.

Lemma validateOAuthUser_known (d : OAuthUserData.t) (st : State) (u : User.t) :
  row_by_provider (OAuthUserData.provider d) (OAuthUserData.providerId d) st = Some u →
  validateOAuthUser d st = (Return (toObject u), (updateLastLogin (User.id u) st).2).
Proof. destruct d as [email name pic p pid]; simpl. intros Hu. run. by rewrite Hu. Qed.

Lemma validateOAuthUser_taken (d : OAuthUserData.t) (st : State) :
  row_by_provider (OAuthUserData.provider d) (OAuthUserData.providerId d) st = None →
  is_Some (row_by_email (OAuthUserData.email d) st) →
  validateOAuthUser d st
  = (Throw (ConflictException
       "An account with this email already exists. Please sign in with your password."),
     st).
Proof.
  destruct d as [email name pic p pid]; simpl. intros Hp [v Hv]. run. by rewrite Hp, Hv.
Qed.

Lemma validateOAuthUser_new (d : OAuthUserData.t) (st : State) :
  row_by_provider (OAuthUserData.provider d) (OAuthUserData.providerId d) st = None →
  row_by_email (OAuthUserData.email d) st = None →
  ∃ e, validateOAuthUser d st = (Return e, inserted (new_row (oauth_create d) st) st) ∧
       e !! "id" = Some (VUuid (nextId st)) ∧
       e !! "email" = Some (VStr (OAuthUserData.email d)) ∧
       e !! "password" = Some VNull.
Proof.
  destruct d as [email name pic p pid]; simpl. intros Hp He.
  destruct (create_fresh (CreateUserDto.mk email None name pic (Some p) (Some pid)) st He)
    as (e & Hc & Hid & Hem & Hpw & _).
  exists e. split_and!; [|done..].
  etransitivity; [|exact Hc]. run. rewrite Hp, He. simpl. by rewrite He.
Qed.

(** C2. Identity resolution takes three steps in this order.
    (1) When a row carries the pair (provider, providerId), its [lastLogin]
    is moved to the present and the entity loaded for it is returned; the
    email, name and picture of the input play no part, so the answer is the
    same for any of them, also for an email another account holds.
    (2) Otherwise, when a row carries the email, the call throws the
    conflict and writes nothing.
    (3) Otherwise a row is inserted for the identity and its entity is
    returned. *)
Theorem validateOAuthUser_three_steps (d : OAuthUserData.t) (st : State) :
  (∀ u, row_by_provider (OAuthUserData.provider d) (OAuthUserData.providerId d) st = Some u →
     validateOAuthUser d st = (Return (toObject u), (updateLastLogin (User.id u) st).2) ∧
     refreshed (clock st) u ∈ users (updateLastLogin (User.id u) st).2 ∧
     User.lastLogin (refreshed (clock st) u) = Some (clock st) ∧
     ∀ email name profilePicture,
       validateOAuthUser
         (OAuthUserData.mk email name profilePicture
            (OAuthUserData.provider d) (OAuthUserData.providerId d)) st
       = validateOAuthUser d st) ∧
  (row_by_provider (OAuthUserData.provider d) (OAuthUserData.providerId d) st = None →
   is_Some (row_by_email (OAuthUserData.email d) st) →
     validateOAuthUser d st
     = (Throw (ConflictException
          "An account with this email already exists. Please sign in with your password."),
        st)) ∧
  (row_by_provider (OAuthUserData.provider d) (OAuthUserData.providerId d) st = None →
   row_by_email (OAuthUserData.email d) st = None →
     ∃ e, validateOAuthUser d st
          = (Return e,
             inserted
               (User.mk (nextId st) (OAuthUserData.email d) None (OAuthUserData.name d)
                  (OAuthUserData.profilePicture d) (OAuthUserData.provider d)
                  (Some (OAuthUserData.providerId d)) true false None None None
                  (clock st) (clock st) None) st) ∧
          e !! "id" = Some (VUuid (nextId st)) ∧
          e !! "email" = Some (VStr (OAuthUserData.email d))).
Proof.
  split_and!.
  - intros u Hu. destruct (row_by_provider_Some _ _ _ _ Hu) as (Hin & _ & _).
    split_and!.
    + by apply validateOAuthUser_known.
    + by apply refreshed_in.
    + by destruct u.
    + intros. by rewrite !(validateOAuthUser_known _ st u).
  - apply validateOAuthUser_taken.
  - intros Hp He. destruct (validateOAuthUser_new d st Hp He) as (e & Hr & Hid & Hem & _).
    exists e. split_and!; [exact Hr | done..].
Qed.

(** C5. When the pair (provider, providerId) is unknown and the email
    belongs to an existing account, resolution throws the conflict and the
    store afterwards is the store before: no row was added or changed. *)
Theorem validateOAuthUser_conflict_keeps_store (d : OAuthUserData.t) (st : State) :
  row_by_provider (OAuthUserData.provider d) (OAuthUserData.providerId d) st = None →
  is_Some (row_by_email (OAuthUserData.email d) st) →
  ∃ message st',
    validateOAuthUser d st = (Throw (ConflictException message), st') ∧
    users st' = users st ∧ st' = st.
Proof.
  intros Hp He. eexists _, st. split; [|done]. by apply validateOAuthUser_taken.
Qed.
End OAuth.

(** ** What the methods of AuthService compute *)

Section AuthRuns.
Context `{PasswordHasher} `{JwtService} `{Postgres}.

Lemma validateUser_Some (email password : string) (st st' : State) (view : obj) :
  validateUser email password st = (Return (Some view), st') →
  ∃ row hashed,
    row_by_email email st = Some row ∧ User.password row = Some hashed ∧
    bcrypt_compare password hashed = true ∧ User.isActive row = true ∧
    view = omit "password" (toObject row) ∧ st' = st.
Proof.
  run. destruct (row_by_email email st) as [row|] eqn:Hrow; [|done].
  destruct (User.password row) as [hashed|] eqn:Hp; [|done].
  destruct (truthy hashed); simpl; [|done].
  destruct (bcrypt_compare password hashed) eqn:Hc; simpl; [|done].
  destruct (User.isActive row) eqn:Ha; simpl; [|done].
  intros [= <- <-]. by exists row, hashed.
Qed.

Lemma login_run (u : obj) (i : uuid) (st : State) :
  u !! "id" = Some (VUuid i) →
  login u st
  = (Return (mkAuthResponse (omit "password" u)
               (jwt_sign (obj_literal [("email", u !! "email"); ("sub", u !! "id")]))),
     (updateLastLogin i st).2).
Proof. intros Hid. run. by rewrite Hid. Qed.

Lemma login_Return (u : obj) (st st' : State) (r : AuthResponse) :
  login u st = (Return r, st') →
  ∃ i, u !! "id" = Some (VUuid i) ∧
       r = mkAuthResponse (omit "password" u)
             (jwt_sign (obj_literal [("email", u !! "email"); ("sub", u !! "id")])) ∧
       st' = (updateLastLogin i st).2.
Proof.
  intros Hl. destruct (u !! "id") as [[| | | |i]|] eqn:Hid;
    try (revert Hl; run; rewrite Hid; simpl; discriminate).
  rewrite (login_run u i st Hid) in Hl. injection Hl as <- <-.
  exists i. by rewrite Hid.
Qed.

Lemma register_fresh (dto : RegisterDto.t) (st : State) :
  row_by_email (RegisterDto.email dto) st = None →
  ∃ e, register dto st
       = (Return (mkAuthResponse (omit "password" e)
                    (jwt_sign (claims (RegisterDto.email dto) (nextId st)))),
          inserted (new_row (RegisterDto.as_create dto) st) st) ∧
       e !! "id" = Some (VUuid (nextId st)) ∧
       e !! "email" = Some (VStr (RegisterDto.email dto)) ∧
       e !! "emailVerificationToken" = Some VNull ∧
       e !! "resetPasswordToken" = Some VNull.
Proof.
  intros Hfree.
  destruct (create_fresh (RegisterDto.as_create dto) st Hfree)
    as (e & Hc & Hid & Hem & _ & Hev & Hrp).
  exists e. split_and!; [|done..].
  unfold register, mbind, M_bind. rewrite Hc. unfold mret, M_ret.
  by rewrite Hid, Hem.
Qed.

Lemma register_taken (dto : RegisterDto.t) (st : State) :
  is_Some (row_by_email (RegisterDto.email dto) st) →
  register dto st
  = (Throw (ConflictException "User with this email already exists"), st).
Proof.
  intros Htaken. unfold register, mbind, M_bind.
  by rewrite (create_conflict (RegisterDto.as_create dto) st Htaken).
Qed.

Lemma register_Return (dto : RegisterDto.t) (st st' : State) (r : AuthResponse) :
  register dto st = (Return r, st') → row_by_email (RegisterDto.email dto) st = None.
Proof.
  destruct (row_by_email (RegisterDto.email dto) st) as [u|] eqn:Hu; [|done].
  rewrite register_taken; [done | by rewrite Hu].
Qed.
End AuthRuns.

(** ** Registration, tokens and user views *)

Section Registration.
Context `{PasswordHasher} `{JwtService} `{Postgres}.

(** C7. Registration with an email that a stored user holds throws the
    conflict, whatever the password; with an email no stored user holds it
    returns and inserts the new row; so a second registration with the
    email of a successful one throws the conflict, whatever its password,
    name or picture. *)
Theorem register_success_then_conflict (dto : RegisterDto.t) (st : State) :
  (is_Some (row_by_email (RegisterDto.email dto) st) →
     ∀ password,
       register (RegisterDto.mk (RegisterDto.email dto) password (RegisterDto.name dto)
                   (RegisterDto.profilePicture dto)) st
       = (Throw (ConflictException "User with this email already exists"), st)) ∧
  (row_by_email (RegisterDto.email dto) st = None →
     ∃ r, register dto st
          = (Return r, inserted (new_row (RegisterDto.as_create dto) st) st)) ∧
  (∀ r st', register dto st = (Return r, st') →
     ∀ again, RegisterDto.email again = RegisterDto.email dto →
       register again st'
       = (Throw (ConflictException "User with this email already exists"), st')).
Proof.
  split_and!.
  - intros Htaken password. by apply register_taken.
  - intros Hfree. destruct (register_fresh dto st Hfree) as (e & Hr & _). eauto.
  - intros r st' Hr again Hsame.
    pose proof (register_Return _ _ _ _ Hr) as Hfree.
    destruct (register_fresh dto st Hfree) as (e & Hr' & _).
    rewrite Hr' in Hr. injection Hr as _ <-.
    apply register_taken. rewrite Hsame.
    exists (new_row (RegisterDto.as_create dto) st).
    by apply row_by_email_inserted.
Qed.

(** C3 (amended). The user view returned by a successful registration and
    by a successful login has no [password] property, and neither has the
    view local credential validation returns. *)
Theorem user_view_has_no_password :
  (∀ dto st r st', register dto st = (Return r, st') →
     user r !! "password" = None) ∧
  (∀ u st r st', login u st = (Return r, st') → user r !! "password" = None) ∧
  (∀ email password st view st',
     validateUser email password st = (Return (Some view), st') →
     view !! "password" = None).
Proof.
  split_and!.
  - intros dto st r st' Hr.
    pose proof (register_Return _ _ _ _ Hr) as Hfree.
    destruct (register_fresh dto st Hfree) as (e & Hr' & _).
    rewrite Hr' in Hr. injection Hr as <- _. cbn [user]. unfold omit.
    apply lookup_delete_eq.
  - intros u st r st' Hl. apply login_Return in Hl as (i & _ & -> & _).
    apply lookup_delete_eq.
  - intros email password st view st' Hv.
    apply validateUser_Some in Hv as (row & hashed & _ & _ & _ & _ & -> & _).
    apply lookup_delete_eq.
Qed.

(** C9. Profile retrieval throws "User not found" when no stored user has
    the id.  Otherwise it returns, without writing, the selected columns of
    that user's row: the view carries the user's id, email and name, every
    property it has is the row's, and it has no password hash and no token
    property. *)
Theorem getProfile_found_or_not (userId : uuid) (st : State) :
  ((∀ u, u ∈ users st → User.id u ≠ userId) →
     getProfile userId st = (Throw (NotFoundException "User not found"), st)) ∧
  (∀ u, find_row userId st = Some u →
     ∃ view, getProfile userId st = (Return view, st) ∧
       u ∈ users st ∧
       view !! "id" = Some (VUuid userId) ∧
       view !! "email" = Some (VStr (User.email u)) ∧
       view !! "name" = Some (VStr (User.name u)) ∧
       (∀ k v, view !! k = Some v → toObject u !! k = Some v) ∧
       view !! "password" = None ∧
       view !! "emailVerificationToken" = None ∧
       view !! "resetPasswordToken" = None ∧
       view !! "resetPasswordExpires" = None).
Proof.
  split.
  - intros Hno. apply find_row_None in Hno. run. by rewrite Hno.
  - intros u Hu. exists (pick profile_select (toObject u)).
    destruct (find_row_Some _ _ _ Hu) as [Hin Hid].
    split_and!.
    + run. by rewrite Hu.
    + done.
    + rewrite <- Hid. reflexivity.
    + reflexivity.
    + reflexivity.
    + intros k v Hk. unfold pick in Hk. by apply map_lookup_filter_Some in Hk as [Hk _].
    + reflexivity.
    + reflexivity.
    + reflexivity.
    + reflexivity.
Qed.
End Registration.

(** ** Token claims *)

Lemma claims_exact (email : string) (sub : uuid) :
  dom (claims email sub) = {["email"; "sub"]} ∧
  claims email sub !! "email" = Some (VStr email) ∧
  claims email sub !! "sub" = Some (VUuid sub).
Proof.
  split_and!; reflexivity.
Qed.

Section Tokens.
Context `{PasswordHasher} `{JwtService} `{Postgres}.

(** A verifier for the tokens of [jwt_sign]: it gives back the claims a
    token was signed for. *)
Variable jwt_verify : string → option obj.
Hypothesis jwt_verify_sign : ∀ email sub,
  jwt_verify (jwt_sign (claims email sub)) = Some (claims email sub).

(** C8. The token that registration issues is signed for the claims
    [{email, sub}] of the user it created, the token that login issues for
    the claims [{email, sub}] of the user it is given, with [sub] the
    user's id and nothing else in the payload; so the token of a login
    after a successful credential validation decodes to the id and email
    of the stored user who logged in. *)
Theorem token_encodes_user :
  (∀ dto st r st', register dto st = (Return r, st') →
     access_token r = jwt_sign (claims (RegisterDto.email dto) (nextId st)) ∧
     user r !! "id" = Some (VUuid (nextId st)) ∧
     user r !! "email" = Some (VStr (RegisterDto.email dto)) ∧
     jwt_verify (access_token r) = Some (claims (RegisterDto.email dto) (nextId st))) ∧
  (∀ u id email st r st',
     u !! "id" = Some (VUuid id) → u !! "email" = Some (VStr email) →
     login u st = (Return r, st') →
     access_token r = jwt_sign (claims email id) ∧
     jwt_verify (access_token r) = Some (claims email id)) ∧
  (∀ email password st view st1 r st2,
     validateUser email password st = (Return (Some view), st1) →
     login view st1 = (Return r, st2) →
     ∃ row, row_by_email email st = Some row ∧
       jwt_verify (access_token r) = Some (claims email (User.id row)) ∧
       claims email (User.id row) !! "sub" = Some (VUuid (User.id row))) ∧
  (∀ email sub, dom (claims email sub) = {["email"; "sub"]}).
Proof.
  split_and!.
  - intros dto st r st' Hr.
    pose proof (register_Return _ _ _ _ Hr) as Hfree.
    destruct (register_fresh dto st Hfree) as (e & Hr' & Hid & Hem & _).
    rewrite Hr' in Hr. injection Hr as <- _. cbn [access_token user]. unfold omit.
    rewrite !lookup_delete_ne by done. by rewrite jwt_verify_sign.
  - intros u id email st r st' Hid Hem Hl.
    rewrite (login_run u id st Hid) in Hl. injection Hl as <- _. cbn [access_token].
    rewrite Hid, Hem. fold (claims email id). by rewrite jwt_verify_sign.
  - intros email password st view st1 r st2 Hv Hl.
    apply validateUser_Some in Hv as (row & hashed & Hrow & _ & _ & _ & Hview & ->).
    exists row. split; [done|].
    destruct (row_by_email_Some _ _ _ Hrow) as [_ Hem].
    assert (Hid : view !! "id" = Some (VUuid (User.id row))) by (by subst view).
    assert (Hem' : view !! "email" = Some (VStr email)) by (by subst view email).
    clear Hview.
    rewrite (login_run _ _ st Hid) in Hl. injection Hl as <- _. cbn [access_token].
    rewrite Hid, Hem'. fold (claims email (User.id row)).
    split; [by rewrite jwt_verify_sign | reflexivity].
  - intros. apply claims_exact.
Qed.
End Tokens.

(** ** Columns: reading back what was written *)

Lemma provider_of_string_Some (s : string) (p : AuthProvider) :
  provider_of_string s = Some p → provider_string p = s.
Proof.
  unfold provider_of_string.
  repeat (destruct (s =? _) eqn:E;
          [apply String.eqb_eq in E; subst s; by intros [= <-] | clear E]).
  done.
Qed.

Lemma column_names_NoDup : NoDup column_names.
Proof. apply (bool_decide_unpack _). by vm_compute. Qed.

Ltac column_cases :=
  unfold columns; repeat first [apply List.Forall_nil | apply List.Forall_cons].

Lemma col_set_get_all :
  Forall (λ c, ∀ v u u', col_set c v u = Some u' → col_get c u' = v) columns.
Proof.
  column_cases; intros v u u' Hs; cbn in Hs;
    destruct v as [| |s| |]; cbn in Hs; try discriminate;
    try (destruct (provider_of_string s) eqn:Hp; [apply provider_of_string_Some in Hp|]);
    simplify_eq; destruct u; cbn; congruence.
Qed.

Lemma col_set_frame_all :
  Forall (λ c, Forall (λ c', col_name c ≠ col_name c' →
    ∀ v u u', col_set c v u = Some u' → col_get c' u' = col_get c' u) columns) columns.
Proof.
  column_cases; intros Hne v u u' Hs; try done; cbn in Hs;
    destruct v as [| |s| |]; cbn in Hs; try discriminate;
    try (destruct (provider_of_string s); [|discriminate]);
    simplify_eq; by destruct u.
Qed.

Lemma column_by_name_all :
  Forall (λ c, Forall (λ c', col_name c = col_name c' → c = c') columns) columns.
Proof. column_cases; intros Heq; done. Qed.


Lemma col_set_get c v u u' :
  c ∈ columns → col_set c v u = Some u' → col_get c u' = v.
Proof.
  intros Hc Hs. exact (proj1 (Forall_forall _ _) col_set_get_all c Hc v u u' Hs).
Qed.

Lemma col_set_frame c c' v u u' :
  c ∈ columns → c' ∈ columns → col_name c ≠ col_name c' →
  col_set c v u = Some u' → col_get c' u' = col_get c' u.
Proof.
  intros Hc Hc' Hne Hs.
  pose proof (proj1 (Forall_forall _ _) col_set_frame_all c Hc) as Hall.
  exact (proj1 (Forall_forall _ _) Hall c' Hc' Hne v u u' Hs).
Qed.

Lemma column_by_name c c' :
  c ∈ columns → c' ∈ columns → col_name c = col_name c' → c = c'.
Proof.
  intros Hc Hc' Heq.
  pose proof (proj1 (Forall_forall _ _) column_by_name_all c Hc) as Hall.
  exact (proj1 (Forall_forall _ _) Hall c' Hc' Heq).
Qed.


(** After a write, a column holds the value the entity defines for it and
    its old value when the entity defines none. *)
Lemma write_cols_get (cs : list Column) (e : obj) :
  (∀ c, c ∈ cs → c ∈ columns) →
  NoDup (col_name <$> cs) →
  ∀ u u', write_cols cs e u = Some u' →
  ∀ c', c' ∈ columns →
    col_get c' u' = if decide (col_name c' ∈ col_name <$> cs)
                    then default (col_get c' u) (e !! col_name c')
                    else col_get c' u.
Proof.
  induction cs as [|c cs IH]; intros Hsub Hnd u u' Hw c' Hc'.
  - simpl in Hw. injection Hw as <-. rewrite decide_False; [done|]. apply not_elem_of_nil.
  - rewrite fmap_cons in Hnd. apply NoDup_cons in Hnd as [Hfresh Hnd].
    assert (Hc : c ∈ columns) by (apply Hsub, elem_of_cons; by left).
    assert (Hsub' : ∀ c0, c0 ∈ cs → c0 ∈ columns)
      by (intros c0 H0; apply Hsub, elem_of_cons; by right).
    rewrite fmap_cons. simpl in Hw.
    destruct (decide (col_name c' = col_name c)) as [Heq|Hne].
    + assert (c' = c) as -> by by apply column_by_name.
      rewrite decide_True by (apply elem_of_cons; by left).
      destruct (e !! col_name c) as [v|] eqn:Hv; simpl.
      * destruct (col_set c v u) as [u1|] eqn:Hs; [|done].
        rewrite (IH Hsub' Hnd u1 u' Hw c Hc), decide_False by done.
        by eapply col_set_get.
      * by rewrite (IH Hsub' Hnd u u' Hw c Hc), decide_False by done.
    + assert (Hmem : col_name c' ∈ col_name c :: (col_name <$> cs) ↔
                     col_name c' ∈ col_name <$> cs).
      { rewrite elem_of_cons. split; [by intros [?|?] | by right]. }
      destruct (e !! col_name c) as [v|] eqn:Hv.
      * destruct (col_set c v u) as [u1|] eqn:Hs; [|done].
        rewrite (IH Hsub' Hnd u1 u' Hw c' Hc').
        rewrite (col_set_frame c c' v u u1) by done.
        destruct (decide (col_name c' ∈ col_name <$> cs)) as [Hin|Hin].
        -- by rewrite decide_True by by apply Hmem.
        -- rewrite decide_False; [done|]. by rewrite Hmem.
      * rewrite (IH Hsub' Hnd u u' Hw c' Hc').
        destruct (decide (col_name c' ∈ col_name <$> cs)) as [Hin|Hin].
        -- by rewrite decide_True by by apply Hmem.
        -- rewrite decide_False; [done|]. by rewrite Hmem.
Qed.

Lemma write_columns_get (e : obj) (u u' : User.t) (c : Column) :
  write_columns e u = Some u' → c ∈ columns →
  col_get c u' = default (col_get c u) (e !! col_name c).
Proof.
  intros Hw Hc.
  rewrite (write_cols_get columns e (λ _ H, H) column_names_NoDup u u' Hw c Hc).
  rewrite decide_True; [done|]. apply list_elem_of_fmap. eauto.
Qed.

(** ** Column types *)




Lemma differs_false (e : obj) (row : User.t) (c : Column) (v : value) :
  differs e row = false → c ∈ columns → e !! col_name c = Some v →
  v = col_get c row.
Proof.
  intros Hd Hc Hv. destruct (decide (v = col_get c row)) as [|Hne]; [done|].
  assert (differs e row = true); [|congruence].
  apply existsb_exists. exists c. split; [by apply list_elem_of_In|].
  rewrite Hv. by rewrite bool_decide_eq_false_2.
Qed.

(** ** Profile update *)

Section ProfileUpdate.
Context `{Postgres}.

(** After a write, a column holds what the database made of the value the
    entity defines for it, and its old value when the entity defines
    none. *)
Lemma persist_get (e : obj) (u u' : User.t) (c : Column) (ty : ColType) :
  persist e u = Some u' → c ∈ columns → (col_name c, ty) ∈ column_types →
  match e !! col_name c with
  | Some v => ∃ v', coerce_value ty v = Some v' ∧ col_get c u' = v'
  | None => col_get c u' = col_get c u
  end.
Proof.
  unfold persist. destruct (bind_parameters e) as [e'|] eqn:Hb; [|done].
  intros Hw Hc Hty. rewrite (write_columns_get e' u u' c Hw Hc).
  pose proof (bind_parameters_lookup e e' _ _ Hb Hty) as Hl.
  destruct (e !! col_name c) as [v|].
  - destruct Hl as (v' & Hv' & ->). eauto.
  - by rewrite Hl.
Qed.



Lemma id_column_in : id_column ∈ columns.
Proof. by apply (list_elem_of_lookup_2 _ 0). Qed.

Lemma password_column_in : password_column ∈ columns.
Proof. by apply (list_elem_of_lookup_2 _ 2). Qed.


Lemma id_column_type : ("id", TUuid) ∈ column_types.
Proof. by apply (list_elem_of_lookup_2 _ 0). Qed.



(** A write keeps the primary key the entity names. *)
Lemma persist_id (e : obj) (u u' : User.t) (i : uuid) :
  persist e u = Some u' → e !! "id" = Some (VUuid i) → User.id u' = i.
Proof.
  intros Hw He.
  pose proof (persist_get e u u' id_column TUuid Hw id_column_in id_column_type) as Hg.
  cbn [col_name id_column column] in Hg. rewrite He in Hg.
  destruct Hg as (v' & Hv' & Hg). cbn in Hv'.
  rewrite pg_input_typed in Hv' by done. injection Hv' as <-.
  cbn in Hg. by injection Hg.
Qed.

Lemma persist_id_default (e : obj) (u u' : User.t) :
  persist e u = Some u' → e !! "id" = None → User.id u' = User.id u.
Proof.
  intros Hw He.
  pose proof (persist_get e u u' id_column TUuid Hw id_column_in id_column_type) as Hg.
  cbn [col_name id_column column] in Hg. rewrite He in Hg.
  cbn in Hg. by injection Hg.
Qed.





End ProfileUpdate.

(** ** The origin of password hashes *)

Lemma appended_same (st : State) : appended st st = None.
Proof. unfold appended. by rewrite Nat.ltb_irrefl. Qed.

Lemma appended_inserted (row : User.t) (st : State) :
  appended st (inserted row st) = Some row.
Proof.
  unfold appended, inserted. simpl. rewrite length_app. simpl.
  replace (length (users st) <? length (users st) + 1)%nat with true
    by (symmetry; apply Nat.ltb_lt; lia).
  apply last_snoc.
Qed.

Lemma invariant_inserted (st : State) (origins : gmap N Origin) (row : User.t) (o : Origin) :
  store_invariant st origins →
  User.id row = nextId st →
  (User.password row ≠ None → o = ByRegistration) →
  (∀ p, o = ByOAuth p →
     User.password row = None ∧ User.isActive row = true ∧ User.authProvider row = p) →
  store_invariant (inserted row st) (<[nextId st := o]> origins).
Proof.
  intros Hinv Hid Hreg Hoauth u Hu. unfold inserted in *. simpl in *.
  apply elem_of_app in Hu as [Hu | Hu].
  - destruct (Hinv u Hu) as (Hlt & Hpw & Hoa).
    rewrite lookup_insert_ne by lia. split_and!; [lia | done..].
  - apply list_elem_of_singleton in Hu as ->. rewrite Hid, lookup_insert_eq.
    split_and!; [lia | by intros ->%Hreg | by intros p [= ->]; apply Hoauth].
Qed.

Section Origins.
Context `{PasswordHasher} `{JwtService} `{Postgres}.

Lemma appended_touch (i : uuid) (st : State) :
  appended st (updateLastLogin i st).2 = None.
Proof.
  unfold appended, updateLastLogin, repo_update_lastLogin. simpl.
  by rewrite length_fmap, Nat.ltb_irrefl.
Qed.

Lemma invariant_touch (i : uuid) (st : State) (origins : gmap N Origin) :
  store_invariant st origins → store_invariant (updateLastLogin i st).2 origins.
Proof.
  intros Hinv u' Hu'. unfold updateLastLogin, repo_update_lastLogin in Hu'. simpl in *.
  apply list_elem_of_fmap in Hu' as (u & -> & Hu).
  destruct (Hinv u Hu) as (Hlt & Hpw & Hoa).
  destruct (has_id i u); [|done]. by destruct u.
Qed.

Lemma validateUser_keeps (email password : string) (st : State) :
  (validateUser email password st).2 = st.
Proof.
  run. destruct (row_by_email email st) as [u|]; [|done].
  destruct (User.password u) as [hashed|]; [|done].
  destruct (truthy hashed); simpl; [|done].
  destruct (bcrypt_compare password hashed); simpl; [|done].
  by destruct (User.isActive u).
Qed.

Lemma getProfile_keeps (userId : uuid) (st : State) : (getProfile userId st).2 = st.
Proof. run. by destruct (find_row userId st). Qed.

Lemma login_effect (u : obj) (st : State) :
  (login u st).2 = st ∨ ∃ i, (login u st).2 = (updateLastLogin i st).2.
Proof.
  destruct (u !! "id") as [[| | | |i]|] eqn:Hid;
    try (left; run; by rewrite Hid).
  right. exists i. by rewrite (login_run u i st Hid).
Qed.

(** One request keeps the invariant, with the record of origins kept
    beside it. *)
Lemma invariant_step (t : Z) (rq : Request) (st : State) (origins : gmap N Origin) :
  store_invariant st origins →
  store_invariant (serve t rq st) (record rq (at_time t st) (serve t rq st) origins).
Proof.
  intros Hinv.
  assert (Hat : store_invariant (at_time t st) origins) by exact Hinv.
  destruct rq as [email password | d | dto | u | userId]; unfold serve, record;
    set (s := at_time t st) in *; clearbody s; clear Hinv st.
  - by rewrite validateUser_keeps.
  - destruct (row_by_provider (OAuthUserData.provider d) (OAuthUserData.providerId d) s)
      as [u|] eqn:Hp.
    + rewrite (validateOAuthUser_known d s u Hp). cbn [snd].
      rewrite appended_touch. by apply invariant_touch.
    + destruct (row_by_email (OAuthUserData.email d) s) as [v|] eqn:He.
      * rewrite (validateOAuthUser_taken d s Hp) by by rewrite He.
        cbn [snd]. by rewrite appended_same.
      * destruct (validateOAuthUser_new d s Hp He) as (e & -> & _). cbn [snd].
        rewrite appended_inserted. apply invariant_inserted; [done.. |].
        by intros p [= <-].
  - destruct (row_by_email (RegisterDto.email dto) s) as [v|] eqn:He.
    + rewrite (register_taken dto s) by by rewrite He. cbn [snd]. by rewrite appended_same.
    + destruct (register_fresh dto s He) as (e & -> & _). cbn [snd].
      rewrite appended_inserted. by apply invariant_inserted.
  - destruct (login_effect u s) as [-> | [i ->]]; [done | by apply invariant_touch].
  - by rewrite getProfile_keeps.
Qed.

Lemma invariant_run (rqs : list (Z * Request)) (st : State) (origins : gmap N Origin) :
  store_invariant st origins →
  store_invariant (run_core rqs st origins).1 (run_core rqs st origins).2.
Proof.
  revert st origins. induction rqs as [|[t rq] rqs IH]; intros st origins Hinv; [done|].
  simpl. apply IH. by apply invariant_step.
Qed.

(** C6. Started on a store that satisfies the invariant, the empty table
    for one, any sequence of requests to the core leaves a store in which
    every row with a password hash was created by registration.  A row
    created by OAuth resolution has no password hash, is active and has
    the provider of the call as its [authProvider], at its creation and
    after any further requests; the entity returned for it at its
    creation has [null] for its password. *)
Theorem password_hash_only_from_registration :
  (∀ rqs st origins u,
     store_invariant st origins →
     u ∈ users (run_core rqs st origins).1 →
     (User.password u ≠ None →
        (run_core rqs st origins).2 !! User.id u = Some ByRegistration) ∧
     (∀ p, (run_core rqs st origins).2 !! User.id u = Some (ByOAuth p) →
        User.password u = None ∧ User.isActive u = true ∧ User.authProvider u = p)) ∧
  (∀ next now, store_invariant (mkState [] next now) ∅) ∧
  (∀ d st e st',
     row_by_provider (OAuthUserData.provider d) (OAuthUserData.providerId d) st = None →
     validateOAuthUser d st = (Return e, st') →
     ∃ row, users st' = (users st ++ [row])%list ∧
       record (ValidateOAuthUser d) st st' ∅ !! User.id row
         = Some (ByOAuth (OAuthUserData.provider d)) ∧
       User.password row = None ∧ User.isActive row = true ∧
       User.authProvider row = OAuthUserData.provider d ∧
       e !! "password" = Some VNull).
Proof.
  split_and!.
  - intros rqs st origins u Hinv Hu.
    destruct (invariant_run rqs st origins Hinv u Hu) as (_ & Hpw & Hoa). done.
  - intros next now u Hu. simpl in Hu. by apply elem_of_nil in Hu.
  - intros d st e st' Hp Hr.
    destruct (row_by_email (OAuthUserData.email d) st) as [v|] eqn:He.
    { rewrite (validateOAuthUser_taken d st Hp) in Hr by by rewrite He. done. }
    destruct (validateOAuthUser_new d st Hp He) as (e' & Hr' & _ & _ & Hpw).
    rewrite Hr' in Hr. injection Hr as <- <-.
    exists (new_row (oauth_create d) st). unfold record. rewrite appended_inserted.
    split_and!; try done. by rewrite lookup_insert_eq.
Qed.
End Origins.

(** * Further properties of UsersService and AuthService *)

(** ** Removal, listing and the login timestamp *)

Lemma find_row_filter_other (i j : uuid) (rows : list User.t) (n : uuid) (c : Z) :
  j ≠ i →
  find_row j (mkState (filter (λ r, has_id i r = false) rows) n c)
  = find_row j (mkState rows n c).
Proof.
  intros Hne. unfold find_row. simpl.
  induction rows as [|r rows IH]; [done|].
  rewrite filter_cons. unfold has_id in *. destruct (decide _) as [Hk|Hk]; simpl.
  - destruct (User.id r =? j)%N; [done | exact IH].
  - apply not_false_is_true, N.eqb_eq in Hk.
    replace (User.id r =? j)%N with false; [exact IH|].
    symmetry. apply N.eqb_neq. congruence.
Qed.

Lemma find_row_filter_self (i : uuid) (rows : list User.t) (n : uuid) (c : Z) :
  find_row i (mkState (filter (λ r, has_id i r = false) rows) n c) = None.
Proof.
  apply find_row_None. simpl. intros u Hu Hid.
  apply list_elem_of_filter in Hu as [Hk _]. unfold has_id in Hk.
  apply N.eqb_neq in Hk. done.
Qed.

Lemma remove_run (id : uuid) (st : State) (u : User.t) :
  find_row id st = Some u →
  remove id st
  = (Return tt,
     mkState (filter (λ r, has_id id r = false) (users st)) (nextId st) (clock st)).
Proof.
  intros Hu. destruct (find_row_Some _ _ _ Hu) as [_ Hid].
  unfold remove. run. rewrite Hu.
  replace (pick profile_select (toObject u) !! "id") with (Some (VUuid id))
    by (by rewrite <- Hid).
  reflexivity.
Qed.

(** X1. Removing a stored user returns, takes every row with that id out
    of the table and leaves the other rows, in their order, as they were:
    afterwards the id is not found, by [findById] it is "User not found",
    and every other id resolves to the row it resolved to before. *)
Theorem remove_deletes_the_user (id : uuid) (st : State) (u : User.t) :
  find_row id st = Some u →
  ∃ st', remove id st = (Return tt, st') ∧
    users st' = filter (λ r, User.id r ≠ id) (users st) ∧
    nextId st' = nextId st ∧
    find_row id st' = None ∧
    findById id st' = (Throw (NotFoundException "User not found"), st') ∧
    ∀ j, j ≠ id → find_row j st' = find_row j st.
Proof.
  intros Hu. eexists. split; [by apply (remove_run id st u)|].
  destruct st as [rows n c]. simpl. split_and!.
  - apply list_filter_iff. intros r. unfold has_id. by rewrite N.eqb_neq.
  - done.
  - apply find_row_filter_self.
  - run. by rewrite find_row_filter_self.
  - intros j Hj. by apply find_row_filter_other.
Qed.

Section Routes.
Context `{Postgres}.

(** X2. [GET], [PATCH] and [DELETE /users/:id] hand the text of the route
    to the service as it came.  When the text is no uuid the query fails
    in the database; when it is the uuid of no stored user the service
    throws "User not found".  Either way the call throws before anything
    is written: the store is unchanged, whatever the payload of the
    update. *)
Theorem update_and_remove_unknown_id (id : string) (st : State) :
  (pg_uuid id = None →
     (∀ dto, UsersController.update id dto st
             = (Throw (RepositoryError "invalid input syntax for type uuid"), st)) ∧
     UsersController.remove id st
     = (Throw (RepositoryError "invalid input syntax for type uuid"), st) ∧
     UsersController.findOne id st
     = (Throw (RepositoryError "invalid input syntax for type uuid"), st)) ∧
  (∀ i, pg_uuid id = Some i →
     (∀ u, u ∈ users st → User.id u ≠ i) →
     (∀ dto, UsersController.update id dto st
             = (Throw (NotFoundException "User not found"), st)) ∧
     UsersController.remove id st = (Throw (NotFoundException "User not found"), st) ∧
     UsersController.findOne id st = (Throw (NotFoundException "User not found"), st)).
Proof.
  unfold UsersController.update, UsersController.remove, UsersController.findOne,
    with_route_id.
  split.
  - intros ->. done.
  - intros i -> Hno. apply find_row_None in Hno. split_and!.
    + intros dto. run. by rewrite Hno.
    + unfold remove. run. by rewrite Hno.
    + run. by rewrite Hno.
Qed.

(** X3. [findAll] leaves the store alone and returns one view per stored
    user, in the order the database scans the table, which is some order
    of its rows; a view carries the user's id, email and name and has no
    password, token, provider-id or last-login property. *)
Theorem findAll_lists_public_views (st : State) :
  ∃ views, findAll st = (Return views, st) ∧
    views ≡ₚ (λ u, pick profile_select (toObject u)) <$> users st ∧
    length views = length (users st) ∧
    (∀ u, u ∈ users st → pick profile_select (toObject u) ∈ views) ∧
    ∀ view, view ∈ views →
      ∃ u, u ∈ users st ∧
        view !! "id" = Some (VUuid (User.id u)) ∧
        view !! "email" = Some (VStr (User.email u)) ∧
        view !! "name" = Some (VStr (User.name u)) ∧
        view !! "password" = None ∧
        view !! "emailVerificationToken" = None ∧
        view !! "resetPasswordToken" = None ∧
        view !! "providerId" = None ∧
        view !! "lastLogin" = None.
Proof.
  eexists. split; [reflexivity|].
  pose proof (pg_scan_perm (users st)) as Hperm. split_and!.
  - by apply fmap_Permutation.
  - by rewrite length_fmap, Hperm.
  - intros u Hu. apply list_elem_of_fmap. exists u. split; [done|]. by rewrite Hperm.
  - intros view (u & -> & Hu)%list_elem_of_fmap. exists u. rewrite Hperm in Hu.
    split_and!; [done | reflexivity ..].
Qed.
End Routes.

Lemma refreshed_frame_all :
  Forall (λ c, col_name c = "lastLogin" ∨ col_name c = "updatedAt" ∨
               ∀ now r, col_get c (refreshed now r) = col_get c r) columns.
Proof.
  column_cases; first [ by left | by right; left | right; right; intros now r; by destruct r ].
Qed.

(** X4. [updateLastLogin] never fails and never adds or removes a row.  A
    row with another id is left as it is; a row with the id gets
    [lastLogin] and [updatedAt] set to the current time and keeps every
    other column.  When no row has the id the table is unchanged and the
    call still returns. *)
Theorem updateLastLogin_touches_only_timestamps (id : uuid) (st : State) :
  ∃ st', updateLastLogin id st = (Return tt, st') ∧
    length (users st') = length (users st) ∧
    nextId st' = nextId st ∧
    (∀ i r, users st !! i = Some r →
       ∃ r', users st' !! i = Some r' ∧
         (User.id r ≠ id → r' = r) ∧
         (User.id r = id →
            User.lastLogin r' = Some (clock st) ∧ User.updatedAt r' = clock st ∧
            ∀ c, c ∈ columns → col_name c ≠ "lastLogin" → col_name c ≠ "updatedAt" →
                 col_get c r' = col_get c r)) ∧
    ((∀ u, u ∈ users st → User.id u ≠ id) → users st' = users st).
Proof.
  eexists. split; [reflexivity|]. simpl. split_and!.
  - by rewrite length_fmap.
  - done.
  - intros i r Hr. rewrite list_lookup_fmap, Hr. simpl. eexists. split; [done|].
    unfold has_id. split.
    + intros Hne. apply N.eqb_neq in Hne. by rewrite Hne.
    + intros Heq. apply N.eqb_eq in Heq. rewrite Heq. split_and!; [by destruct r..|].
      intros c Hc Hl Hup.
      pose proof (proj1 (Forall_forall _ _) refreshed_frame_all c Hc) as [?|[?|Hf]];
        [done.. | apply Hf].
  - intros Hno. rewrite <- (list_fmap_id (users st)) at 2.
    apply list_fmap_ext. intros i r Hr. unfold has_id.
    pose proof (Hno r (list_elem_of_lookup_2 _ _ _ Hr)) as Hne.
    apply N.eqb_neq in Hne. by rewrite Hne.
Qed.

(** ** Unique keys and unique emails *)

Lemma email_taken_false (e : string) (except : option uuid) (st : State) (r : User.t) :
  email_taken e except st = false → r ∈ users st → User.email r = e →
  match except with Some i => User.id r = i | None => False end.
Proof.
  unfold email_taken. intros Ht Hr He.
  assert (Hno : ¬ ∃ x, In x (users st) ∧
    (User.email x =? e) &&
    match except with Some i => negb (has_id i x) | None => true end = true)
    by (rewrite <- existsb_exists; by rewrite Ht).
  destruct except as [i|].
  - destruct (decide (User.id r = i)) as [|Hne]; [done|]. exfalso. apply Hno.
    exists r. split; [by apply list_elem_of_In|].
    apply andb_true_iff. split; [by apply String.eqb_eq|].
    unfold has_id. apply negb_true_iff. by apply N.eqb_neq.
  - apply Hno. exists r. split; [by apply list_elem_of_In|].
    apply andb_true_iff. split; [by apply String.eqb_eq | done].
Qed.

Lemma well_formed_appended (st : State) (row : User.t) :
  well_formed st →
  (∀ r, r ∈ users st → User.id r ≠ User.id row) →
  email_taken (User.email row) None st = false →
  well_formed (mkState (users st ++ [row]) (N.max (nextId st) (N.succ (User.id row)))
                 (clock st)).
Proof.
  intros (Hids & Hemails & Hlt) Hfresh Hfree. unfold well_formed. simpl.
  rewrite !fmap_app. simpl. split_and!.
  - apply NoDup_app. split_and!; [done | | apply NoDup_singleton].
    intros i Hi Hrow. apply list_elem_of_singleton in Hrow as ->.
    apply list_elem_of_fmap in Hi as (r & Heq & Hr). by apply (Hfresh r Hr).
  - apply NoDup_app. split_and!; [done | | apply NoDup_singleton].
    intros e He Hrow. apply list_elem_of_singleton in Hrow as ->.
    apply list_elem_of_fmap in He as (r & Heq & Hr).
    by apply (email_taken_false _ None st r Hfree Hr).
  - intros u Hu. apply elem_of_app in Hu as [Hu | Hu].
    + pose proof (Hlt u Hu). lia.
    + apply list_elem_of_singleton in Hu as ->. lia.
Qed.

Lemma replaced_emails (new : User.t) (rows : list User.t) :
  NoDup (User.id <$> rows) →
  NoDup (User.email <$> rows) →
  (∀ r, r ∈ rows → User.email r = User.email new → User.id r = User.id new) →
  NoDup (User.email <$> ((λ r, if has_id (User.id new) r then new else r) <$> rows)) ∧
  ∀ e, e ∈ User.email <$> ((λ r, if has_id (User.id new) r then new else r) <$> rows) →
       e ∈ User.email <$> rows ∨
       (e = User.email new ∧ User.id new ∈ User.id <$> rows).
Proof.
  induction rows as [|r rows IH]; intros Hids Hemails Hnew; simpl.
  { split; [constructor | by intros e He%elem_of_nil]. }
  rewrite fmap_cons in Hids. rewrite fmap_cons in Hemails.
  apply NoDup_cons in Hids as [Hid Hids]. apply NoDup_cons in Hemails as [Hem Hemails].
  assert (Hnew' : ∀ r0, r0 ∈ rows → User.email r0 = User.email new → User.id r0 = User.id new)
    by (intros r0 Hr0; apply Hnew, elem_of_cons; by right).
  destruct (IH Hids Hemails Hnew') as [IHnd IHin]. clear IH.
  unfold has_id at 1 3. destruct (User.id r =? User.id new)%N eqn:Hr.
  - apply N.eqb_eq in Hr. split.
    + apply NoDup_cons. split; [|done]. intros Hin.
      apply IHin in Hin as [Hin | [_ Hin]].
      * apply list_elem_of_fmap in Hin as (r0 & Heq & Hr0).
        apply Hid. apply list_elem_of_fmap. exists r0. split; [|done].
        rewrite Hr. symmetry. apply Hnew'; [done | by symmetry].
      * apply Hid. by rewrite Hr.
    + intros e He. apply elem_of_cons in He as [-> | He].
      * right. split; [done|]. rewrite <- Hr. apply elem_of_cons. by left.
      * apply IHin in He as [He | [-> He]].
        -- left. apply elem_of_cons. by right.
        -- right. split; [done|]. apply elem_of_cons. by right.
  - apply N.eqb_neq in Hr. split.
    + apply NoDup_cons. split; [|done]. intros Hin.
      apply IHin in Hin as [Hin | [Heq _]]; [done|].
      apply Hr. apply Hnew; [apply elem_of_cons; by left | done].
    + intros e He. apply elem_of_cons in He as [-> | He].
      * left. apply elem_of_cons. by left.
      * apply IHin in He as [He | [-> He]].
        -- left. apply elem_of_cons. by right.
        -- right. split; [done|]. apply elem_of_cons. by right.
Qed.

Lemma well_formed_replaced (st : State) (new : User.t) :
  well_formed st →
  is_Some (find_row (User.id new) st) →
  email_taken (User.email new) (Some (User.id new)) st = false →
  well_formed (replace_row new st).
Proof.
  intros (Hids & Hemails & Hlt) [row Hrow] Hfree.
  destruct (find_row_Some _ _ _ Hrow) as [Hin Hid].
  unfold well_formed, replace_row. simpl. split_and!.
  - replace (User.id <$> ((λ r, if has_id (User.id new) r then new else r) <$> users st))
      with (User.id <$> users st); [done|].
    rewrite <- list_fmap_compose. apply list_fmap_ext. intros i r _. simpl.
    unfold has_id. destruct (User.id r =? User.id new)%N eqn:Hr; [|done].
    by apply N.eqb_eq in Hr.
  - apply replaced_emails; [done..|].
    intros r Hr He. by apply (email_taken_false _ (Some (User.id new)) st r Hfree Hr).
  - intros u Hu. apply list_elem_of_fmap in Hu as (r & -> & Hr).
    destruct (has_id (User.id new) r); [|by apply Hlt].
    rewrite <- Hid. by apply Hlt.
Qed.

Section WellFormed.
Context `{PasswordHasher} `{JwtService} `{Postgres}.

Lemma well_formed_insert_row (i : uuid) (e : obj) (st : State) :
  well_formed st →
  (∀ r, r ∈ users st → User.id r ≠ i) →
  e !! "id" = None ∨ e !! "id" = Some (VUuid i) →
  well_formed (insert_row i e st).2.
Proof.
  intros Hwf Hfresh Hid. unfold insert_row.
  destruct (e !! "email"); [|done]. destruct (e !! "name"); [|done].
  destruct (persist e (blank i (clock st))) as [row|] eqn:Hw; [|done].
  destruct (email_taken (User.email row) None st) eqn:Hfree; [done|]. simpl.
  assert (Hrow : User.id row = i).
  { destruct Hid as [Hid|Hid];
      [exact (persist_id_default _ _ _ Hw Hid) | exact (persist_id _ _ _ _ Hw Hid)]. }
  rewrite <- Hrow at 1. apply well_formed_appended; [done | by rewrite Hrow | done].
Qed.

Lemma well_formed_update_row (row : User.t) (e : obj) (st : State) :
  well_formed st →
  find_row (User.id row) st = Some row →
  e !! "id" = Some (VUuid (User.id row)) →
  well_formed (update_row row e st).2.
Proof.
  intros Hwf Hrow Hid. unfold update_row.
  destruct (differs e row); cbn [negb]; [|done].
  destruct (persist e row) as [row'|] eqn:Hw; [|done].
  assert (Hrow' : User.id row' = User.id row) by exact (persist_id _ _ _ _ Hw Hid).
  set (row'' := if sets_updatedAt e row then row'
                else User.set_updatedAt (clock st) row').
  assert (Hrow'' : User.id row'' = User.id row).
  { unfold row''. destruct (sets_updatedAt e row); [done|]. by destruct row'. }
  destruct (email_taken (User.email row'') (Some (User.id row)) st) eqn:Hfree; [done|].
  simpl. apply well_formed_replaced; [done | rewrite Hrow''; eauto | by rewrite Hrow''].
Qed.

(** Whatever entity is saved, and whether the save goes through or not,
    a well-formed store stays well-formed. *)
Lemma well_formed_repo_save (e : obj) (st : State) :
  well_formed st → well_formed (repo_save e st).2.
Proof.
  intros Hwf. unfold repo_save.
  destruct (e !! "id") as [[| | | |i]|] eqn:Hid; try done.
  - apply well_formed_insert_row; [done | | left; apply lookup_delete_eq].
    intros r Hr Heq. destruct Hwf as (_ & _ & Hlt). pose proof (Hlt r Hr). lia.
  - destruct (find_row i st) as [row|] eqn:Hrow.
    + destruct (find_row_Some _ _ _ Hrow) as [_ <-].
      by apply well_formed_update_row.
    + apply well_formed_insert_row; [done | by apply find_row_None | by right].
  - apply well_formed_insert_row; [done | | left; apply lookup_delete_eq].
    intros r Hr Heq. destruct Hwf as (_ & _ & Hlt). pose proof (Hlt r Hr). lia.
Qed.

Lemma touched_fmap {B} (f : User.t → B) (i : uuid) (now : Z) (rows : list User.t) :
  (∀ r, f (refreshed now r) = f r) →
  f <$> ((λ r, if has_id i r then refreshed now r else r) <$> rows) = f <$> rows.
Proof.
  intros Hf. rewrite <- list_fmap_compose. apply list_fmap_ext. intros k r _. simpl.
  destruct (has_id i r); [apply Hf | done].
Qed.

Lemma well_formed_touched (i : uuid) (st : State) :
  well_formed st → well_formed (repo_update_lastLogin i st).2.
Proof.
  intros (Hids & Hemails & Hlt). unfold well_formed, repo_update_lastLogin. simpl.
  split_and!.
  - by rewrite touched_fmap by (intros r; by destruct r).
  - by rewrite touched_fmap by (intros r; by destruct r).
  - intros u Hu. apply list_elem_of_fmap in Hu as (r & -> & Hr).
    pose proof (Hlt r Hr). destruct (has_id i r); [by destruct r | done].
Qed.

Lemma well_formed_removed (i : uuid) (st : State) :
  well_formed st → well_formed (repo_remove i st).2.
Proof.
  intros (Hids & Hemails & Hlt). unfold well_formed, repo_remove. simpl. split_and!.
  - eapply sublist_NoDup; [exact Hids|]. apply fmap_sublist, sublist_filter.
  - eapply sublist_NoDup; [exact Hemails|]. apply fmap_sublist, sublist_filter.
  - intros u Hu. apply list_elem_of_filter in Hu as [_ Hu]. by apply Hlt.
Qed.

Lemma create_effect (dto : CreateUserDto.t) (st : State) :
  (create dto st).2 = st ∨ ∃ e, (create dto st).2 = (repo_save e st).2.
Proof.
  run. destruct (row_by_email _ st); [by left|]. right.
  destruct (CreateUserDto.password dto) as [p|]; [destruct (truthy p)|]; simpl; eauto.
Qed.

Lemma register_effect (dto : RegisterDto.t) (st : State) :
  (register dto st).2 = (create (RegisterDto.as_create dto) st).2.
Proof.
  unfold register, mbind, M_bind.
  by destruct (create (RegisterDto.as_create dto) st) as [[e|x] st'].
Qed.

(** X5. Every method of UsersService and AuthService keeps the store
    well-formed: after the call, whether it returned or threw, no two rows
    share a primary key, no two rows share an email, and no row holds a
    key the generator has yet to hand out.  The methods that only read
    ([findAll], [findById], [validateUser], [getProfile]) leave the store
    as it was. *)
Theorem well_formed_preserved (st : State) :
  well_formed st →
  (∀ dto, well_formed (create dto st).2) ∧
  (∀ id dto, well_formed (update id dto st).2) ∧
  (∀ id, well_formed (updateLastLogin id st).2) ∧
  (∀ id, well_formed (remove id st).2) ∧
  (∀ userData, well_formed (validateOAuthUser userData st).2) ∧
  (∀ dto, well_formed (register dto st).2) ∧
  (∀ user, well_formed (login user st).2) ∧
  (findAll st).2 = st ∧
  (∀ id, (findById id st).2 = st) ∧
  (∀ email password, (validateUser email password st).2 = st) ∧
  (∀ userId, (getProfile userId st).2 = st).
Proof.
  intros Hwf.
  assert (Hcreate : ∀ dto, well_formed (create dto st).2).
  { intros dto. destruct (create_effect dto st) as [-> | [e ->]];
      [done | by apply well_formed_repo_save]. }
  split_and!.
  - exact Hcreate.
  - intros id dto. run. destruct (find_row id st); [|done].
    by apply well_formed_repo_save.
  - intros id. by apply well_formed_touched.
  - intros id. unfold remove. run. destruct (find_row id st) as [u|]; [|done].
    destruct (pick profile_select (toObject u) !! "id") as [[| | | |i]|]; try done.
    by apply well_formed_removed.
  - intros d.
    destruct (row_by_provider (OAuthUserData.provider d) (OAuthUserData.providerId d) st)
      as [u|] eqn:Hp.
    + rewrite (validateOAuthUser_known d st u Hp). by apply well_formed_touched.
    + destruct (row_by_email (OAuthUserData.email d) st) as [v|] eqn:He.
      * by rewrite (validateOAuthUser_taken d st Hp) by by rewrite He.
      * destruct (validateOAuthUser_new d st Hp He) as (e & Hr & _).
        destruct (create_fresh (oauth_create d) st He) as (e' & Hc & _).
        pose proof (Hcreate (oauth_create d)) as Hw. rewrite Hc in Hw.
        rewrite Hr. exact Hw.
  - intros dto. rewrite register_effect. apply Hcreate.
  - intros u. destruct (login_effect u st) as [-> | [i ->]];
      [done | by apply well_formed_touched].
  - done.
  - intros id. run. by destruct (find_row id st).
  - intros email password. apply validateUser_keeps.
  - intros userId. apply getProfile_keeps.
Qed.
End WellFormed.

(** ** How the methods compose *)

Lemma find_fmap_stable {A} (p : A → bool) (f : A → A) (l : list A) :
  (∀ x, p (f x) = p x) → find p (f <$> l) = f <$> find p l.
Proof.
  intros Hp. induction l as [|x l IH]; [done|]. simpl. rewrite Hp.
  destruct (p x); [done | exact IH].
Qed.

Lemma well_formed_find_row (st : State) (u : User.t) :
  well_formed st → u ∈ users st → find_row (User.id u) st = Some u.
Proof.
  intros (Hids & _ & _) Hu. unfold find_row, has_id.
  induction (users st) as [|r rows IH]; [by apply elem_of_nil in Hu|].
  rewrite fmap_cons in Hids. apply NoDup_cons in Hids as [Hr Hids].
  simpl. apply elem_of_cons in Hu as [-> | Hu]; [by rewrite N.eqb_refl|].
  destruct (User.id r =? User.id u)%N eqn:Heq; [|by apply IH].
  apply N.eqb_eq in Heq. destruct Hr. rewrite Heq. by apply list_elem_of_fmap_2.
Qed.

Lemma well_formed_row_by_email (st : State) (u : User.t) :
  well_formed st → u ∈ users st → row_by_email (User.email u) st = Some u.
Proof.
  intros (_ & Hemails & _) Hu. unfold row_by_email.
  induction (users st) as [|r rows IH]; [by apply elem_of_nil in Hu|].
  rewrite fmap_cons in Hemails. apply NoDup_cons in Hemails as [Hr Hemails].
  simpl. apply elem_of_cons in Hu as [-> | Hu]; [by rewrite String.eqb_refl|].
  destruct (User.email r =? User.email u) eqn:Heq; [|by apply IH].
  apply String.eqb_eq in Heq. destruct Hr. rewrite Heq. by apply list_elem_of_fmap_2.
Qed.

Lemma well_formed_email_kept (st : State) (u : User.t) :
  well_formed st → u ∈ users st →
  email_taken (User.email u) (Some (User.id u)) st = false.
Proof.
  intros Hwf Hu. unfold email_taken.
  destruct (existsb _ _) eqn:Hex; [|done].
  apply existsb_exists in Hex as (r & Hr & Hc). apply list_elem_of_In in Hr.
  apply andb_true_iff in Hc as [He Hi]. apply String.eqb_eq in He.
  pose proof (well_formed_row_by_email st r Hwf Hr) as H1. rewrite He in H1.
  rewrite (well_formed_row_by_email st u Hwf Hu) in H1. injection H1 as ->.
  unfold has_id in Hi. by rewrite N.eqb_refl in Hi.
Qed.

Lemma find_row_inserted (row : User.t) (st : State) :
  (∀ r, r ∈ users st → User.id r ≠ User.id row) →
  find_row (User.id row) (inserted row st) = Some row.
Proof.
  intros Hfresh. unfold find_row, inserted, has_id. simpl.
  induction (users st) as [|r rows IH]; simpl.
  - by rewrite N.eqb_refl.
  - replace (User.id r =? User.id row)%N with false.
    + apply IH. intros r0 Hr0. apply Hfresh, elem_of_cons. by right.
    + symmetry. apply N.eqb_neq. apply Hfresh, elem_of_cons. by left.
Qed.

Lemma row_by_provider_inserted (p : AuthProvider) (pid : string) (row : User.t) (st : State) :
  row_by_provider p pid st = None →
  User.authProvider row = p → User.providerId row = Some pid →
  row_by_provider p pid (inserted row st) = Some row.
Proof.
  unfold row_by_provider, inserted. simpl. intros Hnone Hp Hpid.
  induction (users st) as [|r rows IH]; simpl in *.
  - by rewrite Hp, Hpid, !bool_decide_eq_true_2.
  - destruct (bool_decide (User.authProvider r = p) &&
              bool_decide (User.providerId r = Some pid)); [done | auto].
Qed.

Lemma row_by_email_replaced (email : string) (st : State) (u new : User.t) :
  row_by_email email st = Some u → find_row (User.id u) st = Some u →
  User.email new = email → User.id new = User.id u →
  row_by_email email (replace_row new st) = Some new.
Proof.
  unfold row_by_email, find_row, replace_row, has_id. simpl. intros He Hi Hemail Hid.
  rewrite Hid. induction (users st) as [|r rows IH]; simpl in *; [done|].
  destruct (User.id r =? User.id u)%N eqn:Hr.
  - apply String.eqb_eq in Hemail. by rewrite Hemail.
  - destruct (User.email r =? email) eqn:Hre; [|auto].
    injection He as ->. by rewrite N.eqb_refl in Hr.
Qed.

Lemma touch_absent (i : uuid) (st : State) :
  (∀ r, r ∈ users st → has_id i r = false) →
  users (repo_update_lastLogin i st).2 = users st.
Proof.
  intros Hno. unfold repo_update_lastLogin. simpl.
  rewrite <- (list_fmap_id (users st)) at 2.
  apply list_fmap_ext. intros k r Hr.
  by rewrite (Hno r (list_elem_of_lookup_2 _ _ _ Hr)).
Qed.

Lemma findById_unknown (id : uuid) (st : State) :
  find_row id st = None →
  findById id st = (Throw (NotFoundException "User not found"), st).
Proof. intros Hno. run. by rewrite Hno. Qed.

Section Compositions.
Context `{PasswordHasher} `{JwtService} `{Postgres}.

(** What [validateUser] answers once the row for the email is known. *)
Lemma validateUser_found (email password : string) (st : State) (row : User.t) :
  row_by_email email st = Some row →
  validateUser email password st
  = (match User.password row with
     | Some hashed =>
         if bcrypt_compare password hashed
         then if User.isActive row
              then Return (Some (omit "password" (toObject row)))
              else Throw (UnauthorizedException "Account is deactivated")
         else Return None
     | None => Return None
     end, st).
Proof.
  intros Hrow. run. rewrite Hrow. destruct (User.password row) as [hashed|]; [|done].
  destruct (truthy hashed) eqn:Ht; simpl.
  - destruct (bcrypt_compare password hashed); simpl; [|done].
    by destruct (User.isActive row).
  - unfold truthy in Ht. apply negb_false_iff, String.eqb_eq in Ht. subst hashed.
    by rewrite bcrypt_compare_empty.
Qed.

(** X6. Registration followed by a local login.  For a free email, a
    non-empty password and a hasher whose hash of that password is
    non-empty and verifies: [register] returns; [validateUser] with the
    same email and password then returns a view of the new user, with the
    generated id, the email, no password; [login] on that view returns a
    token for the claims of the new user; and a password that does not
    verify against the stored hash gets [null]. *)
Theorem register_then_login (dto : RegisterDto.t) (st : State) :
  row_by_email (RegisterDto.email dto) st = None →
  truthy (RegisterDto.password dto) = true →
  bcrypt_compare (RegisterDto.password dto)
    (bcrypt_hash (RegisterDto.password dto) saltRounds) = true →
  ∃ registered st' view r st'',
    register dto st = (Return registered, st') ∧
    validateUser (RegisterDto.email dto) (RegisterDto.password dto) st'
    = (Return (Some view), st') ∧
    view !! "id" = Some (VUuid (nextId st)) ∧
    view !! "email" = Some (VStr (RegisterDto.email dto)) ∧
    view !! "password" = None ∧
    login view st' = (Return r, st'') ∧
    access_token r = jwt_sign (claims (RegisterDto.email dto) (nextId st)) ∧
    ∀ wrong,
      bcrypt_compare wrong (bcrypt_hash (RegisterDto.password dto) saltRounds) = false →
      validateUser (RegisterDto.email dto) wrong st' = (Return None, st').
Proof.
  intros Hfree Hpw Hok.
  destruct (register_fresh dto st Hfree) as (e & Hreg & _).
  set (row := new_row (RegisterDto.as_create dto) st) in *.
  set (st' := inserted row st) in *.
  assert (Hrow : row_by_email (RegisterDto.email dto) st' = Some row)
    by (by apply row_by_email_inserted).
  assert (Hhash : User.password row
                  = Some (bcrypt_hash (RegisterDto.password dto) saltRounds)).
  { unfold row, new_row. simpl. by rewrite Hpw. }
  set (view := omit "password" (toObject row)).
  assert (Hid : view !! "id" = Some (VUuid (nextId st))) by reflexivity.
  assert (Hem : view !! "email" = Some (VStr (RegisterDto.email dto))) by reflexivity.
  eexists _, st', view, _, _. split_and!.
  - exact Hreg.
  - rewrite (validateUser_found _ _ _ row Hrow), Hhash, Hok. reflexivity.
  - exact Hid.
  - exact Hem.
  - apply lookup_delete_eq.
  - apply (login_run view (nextId st) st' Hid).
  - cbn [access_token]. by rewrite Hid, Hem.
  - intros wrong Hwrong.
    by rewrite (validateUser_found _ _ _ row Hrow), Hhash, Hwrong.
Qed.

(** X7. An OAuth identity seen for the first time creates a user; seen
    again, at any later time and with whatever email, name or picture, it
    resolves to that same user: the entity returned carries the same id,
    no row is added, and the user's [lastLogin] is the time of the second
    call. *)
Theorem oauth_second_sign_in (d : OAuthUserData.t) (st : State) (t : Z) :
  row_by_provider (OAuthUserData.provider d) (OAuthUserData.providerId d) st = None →
  row_by_email (OAuthUserData.email d) st = None →
  ∃ first st1, validateOAuthUser d st = (Return first, st1) ∧
    first !! "id" = Some (VUuid (nextId st)) ∧
    ∀ email name profilePicture, ∃ again st2,
      validateOAuthUser
        (OAuthUserData.mk email name profilePicture
           (OAuthUserData.provider d) (OAuthUserData.providerId d)) (at_time t st1)
      = (Return again, st2) ∧
      again !! "id" = Some (VUuid (nextId st)) ∧
      again !! "email" = Some (VStr (OAuthUserData.email d)) ∧
      length (users st2) = length (users st1) ∧
      ∃ row, row ∈ users st2 ∧ User.id row = nextId st ∧ User.lastLogin row = Some t.
Proof.
  intros Hp He. destruct (validateOAuthUser_new d st Hp He) as (e & Hr & Hid & _).
  set (row := new_row (oauth_create d) st) in *.
  exists e, (inserted row st). split_and!; [done..|].
  intros email name pic.
  assert (Hfound : row_by_provider (OAuthUserData.provider d) (OAuthUserData.providerId d)
                     (at_time t (inserted row st)) = Some row)
    by (by apply (row_by_provider_inserted _ _ row st)).
  eexists _, _. split_and!.
  - apply (validateOAuthUser_known
             (OAuthUserData.mk email name pic (OAuthUserData.provider d)
                (OAuthUserData.providerId d)) _ row Hfound).
  - reflexivity.
  - reflexivity.
  - unfold updateLastLogin, repo_update_lastLogin. simpl. by rewrite length_fmap.
  - exists (refreshed t row). split_and!; [|done..].
    apply (refreshed_in (User.id row) (at_time t (inserted row st)) row); [|done].
    unfold inserted. simpl. apply elem_of_app. right. by apply list_elem_of_singleton.
Qed.

(** X8. A user created by OAuth resolution cannot sign in with a
    password: right after the creation [validateUser] answers [null] for
    that user's email and every password. *)
Theorem oauth_user_has_no_local_login (d : OAuthUserData.t) (st : State) :
  row_by_provider (OAuthUserData.provider d) (OAuthUserData.providerId d) st = None →
  row_by_email (OAuthUserData.email d) st = None →
  ∃ e st', validateOAuthUser d st = (Return e, st') ∧
    ∀ password, validateUser (OAuthUserData.email d) password st' = (Return None, st').
Proof.
  intros Hp He. destruct (validateOAuthUser_new d st Hp He) as (e & Hr & _).
  eexists _, _. split; [exact Hr|]. intros password.
  rewrite (validateUser_found _ _ _ (new_row (oauth_create d) st)); [done|].
  by apply row_by_email_inserted.
Qed.

(** X9. Resolution of a known OAuth identity does not look at [isActive]:
    a deactivated user with a linked identity is returned, and [login] on
    the entity issues a token for that user.  The same user, signing in
    with a password that verifies, is refused as deactivated. *)
Theorem oauth_ignores_deactivation (d : OAuthUserData.t) (st : State) (u : User.t) :
  row_by_provider (OAuthUserData.provider d) (OAuthUserData.providerId d) st = Some u →
  User.isActive u = false →
  ∃ st1 r st2,
    validateOAuthUser d st = (Return (toObject u), st1) ∧
    login (toObject u) st1 = (Return r, st2) ∧
    access_token r = jwt_sign (claims (User.email u) (User.id u)) ∧
    ∀ password hashed,
      row_by_email (User.email u) st = Some u → User.password u = Some hashed →
      bcrypt_compare password hashed = true →
      validateUser (User.email u) password st
      = (Throw (UnauthorizedException "Account is deactivated"), st).
Proof.
  intros Hu Hoff.
  assert (Hid : toObject u !! "id" = Some (VUuid (User.id u))) by reflexivity.
  assert (Hem : toObject u !! "email" = Some (VStr (User.email u))) by reflexivity.
  eexists _, _, _. split_and!.
  - by apply validateOAuthUser_known.
  - apply (login_run _ (User.id u) _ Hid).
  - cbn [access_token]. by rewrite Hid, Hem.
  - intros password hashed Hrow Hpw Hok.
    by rewrite (validateUser_found _ _ _ u Hrow), Hpw, Hok, Hoff.
Qed.

(** X10. Registration with the empty password creates a local account
    without a password hash ([if (createUserDto.password)] skips the
    hashing), and nobody can sign in to it with a password: [validateUser]
    answers [null] for its email and every password. *)
Theorem register_empty_password (email name : string) (profilePicture : option string)
    (st : State) :
  row_by_email email st = None →
  ∃ r st', register (RegisterDto.mk email "" name profilePicture) st = (Return r, st') ∧
    (∃ row, row_by_email email st' = Some row ∧ User.password row = None ∧
            User.authProvider row = LOCAL) ∧
    ∀ password, validateUser email password st' = (Return None, st').
Proof.
  intros Hfree.
  destruct (register_fresh (RegisterDto.mk email "" name profilePicture) st Hfree)
    as (e & Hreg & _).
  set (row := new_row (RegisterDto.as_create (RegisterDto.mk email "" name profilePicture))
                st) in *.
  assert (Hrow : row_by_email email (inserted row st) = Some row)
    by (by apply row_by_email_inserted).
  eexists _, _. split_and!; [exact Hreg | by exists row |].
  intros password. by rewrite (validateUser_found _ _ _ row Hrow).
Qed.

(** X11. A login refreshes the stored user and not the user it answers
    with.  After [validateUser] returned a view and [login] ran on it, the
    row found for the email has [lastLogin] at the time of the login,
    while the view in the response still shows the [lastLogin] from
    before. *)
Theorem login_returns_stale_lastLogin (email password : string) (st st1 : State)
    (view : obj) :
  validateUser email password st = (Return (Some view), st1) →
  ∃ row r st2,
    row_by_email email st = Some row ∧
    login view st1 = (Return r, st2) ∧
    row_by_email email st2 = Some (refreshed (clock st) row) ∧
    User.lastLogin (refreshed (clock st) row) = Some (clock st) ∧
    user r !! "lastLogin" = Some (nullable VDate (User.lastLogin row)).
Proof.
  intros Hv. apply validateUser_Some in Hv as (row & hashed & Hrow & _ & _ & _ & -> & ->).
  assert (Hid : omit "password" (toObject row) !! "id" = Some (VUuid (User.id row)))
    by reflexivity.
  eexists row, _, _. split_and!.
  - done.
  - apply (login_run _ (User.id row) st Hid).
  - unfold row_by_email, updateLastLogin, repo_update_lastLogin. simpl.
    rewrite find_fmap_stable.
    + fold (row_by_email email st). rewrite Hrow. simpl.
      unfold has_id. by rewrite N.eqb_refl.
    + intros r. destruct (has_id (User.id row) r); [by destruct r | done].
  - by destruct row.
  - reflexivity.
Qed.

(** X12. [login] does not check that the user it is given is stored.
    After a user has been removed, [login] on a view of that user still
    returns a token for the user's claims and writes nothing, while
    profile retrieval for the id throws "User not found". *)
Theorem login_after_remove (id : uuid) (st : State) (u : User.t) :
  find_row id st = Some u →
  ∃ st1 r st2,
    remove id st = (Return tt, st1) ∧
    login (omit "password" (toObject u)) st1 = (Return r, st2) ∧
    access_token r = jwt_sign (claims (User.email u) id) ∧
    users st2 = users st1 ∧
    getProfile id st2 = (Throw (NotFoundException "User not found"), st2).
Proof.
  intros Hu. destruct (find_row_Some _ _ _ Hu) as [_ Hidu].
  assert (Hid : omit "password" (toObject u) !! "id" = Some (VUuid id))
    by (by rewrite <- Hidu).
  assert (Hem : omit "password" (toObject u) !! "email" = Some (VStr (User.email u)))
    by reflexivity.
  set (st1 := mkState (filter (λ r, has_id id r = false) (users st)) (nextId st) (clock st)).
  assert (Hsame : users (updateLastLogin id st1).2 = users st1).
  { apply touch_absent. intros r Hr. by apply list_elem_of_filter in Hr as [Hk _]. }
  eexists st1, _, _. split_and!.
  - by apply (remove_run id st u).
  - apply (login_run _ id st1 Hid).
  - cbn [access_token]. by rewrite Hid, Hem.
  - exact Hsame.
  - apply findById_unknown. apply find_row_None. rewrite Hsame.
    intros r Hr. apply list_elem_of_filter in Hr as [Hk _].
    unfold has_id in Hk. by apply N.eqb_neq in Hk.
Qed.
End Compositions.

(** ** Profile update, composed *)

Section UpdateThenLogin.
Context `{PasswordHasher} `{JwtService} `{Postgres}.

Lemma update_as_update_row (id : uuid) (dto : obj) (st : State) (u : User.t) :
  dto !! "id" = None → find_row id st = Some u →
  update id dto st
  = update_row u (object_assign (pick profile_select (toObject u)) dto) st.
Proof.
  intros Hnoid Hu. destruct (find_row_Some _ _ _ Hu) as [_ Hid].
  run. rewrite Hu. unfold repo_save.
  replace (object_assign (pick profile_select (toObject u)) dto !! "id")
    with (Some (VUuid id)); [by rewrite Hu|].
  unfold object_assign. rewrite lookup_union_r by done. by rewrite <- Hid.
Qed.

Lemma update_row_effect (row : User.t) (e : obj) (st : State) (i : uuid) :
  e !! "id" = Some (VUuid i) →
  (update_row row e st).2 = st ∨
  ∃ new, (update_row row e st).2 = replace_row new st ∧ User.id new = i.
Proof.
  intros Hid. unfold update_row. destruct (differs e row); cbn [negb]; [|by left].
  destruct (persist e row) as [row'|] eqn:Hw; [|by left].
  destruct (email_taken _ _ st); [by left|]. right. simpl. eexists. split; [done|].
  rewrite <- (persist_id _ _ _ _ Hw Hid).
  destruct (sets_updatedAt e row); [done | by destruct row'].
Qed.

(** X13. A profile update whose payload does not name the primary key
    touches one user only.  Whether it returns or throws, the table keeps
    its length and the key generator its state, and every row with another
    id stays where it was, unchanged. *)
Theorem update_touches_one_user (id : uuid) (dto : obj) (st : State) :
  dto !! "id" = None →
  length (users (update id dto st).2) = length (users st) ∧
  nextId (update id dto st).2 = nextId st ∧
  ∀ i r, users st !! i = Some r → User.id r ≠ id →
         users (update id dto st).2 !! i = Some r.
Proof.
  intros Hnoid. destruct (find_row id st) as [u|] eqn:Hu.
  - destruct (find_row_Some _ _ _ Hu) as [_ Hid].
    rewrite (update_as_update_row id dto st u Hnoid Hu).
    assert (He0 : object_assign (pick profile_select (toObject u)) dto !! "id"
                  = Some (VUuid id))
      by (unfold object_assign; rewrite lookup_union_r by done; by rewrite <- Hid).
    destruct (update_row_effect u _ st id He0) as [-> | (new & -> & Hnew)]; [done|].
    unfold replace_row. simpl. split_and!; [by rewrite length_fmap | done |].
    intros i r Hr Hne. rewrite list_lookup_fmap, Hr. simpl.
    unfold has_id. rewrite Hnew. apply N.eqb_neq in Hne. by rewrite Hne.
  - assert (Hup : update id dto st = (Throw (NotFoundException "User not found"), st))
      by (run; by rewrite Hu).
    by rewrite Hup.
Qed.

(** An update that changes neither the email nor the key of a stored user
    and leaves [updatedAt] to the database goes through on a well-formed
    store, and the user is found by email afterwards. *)
Lemma update_row_runs (u row' : User.t) (e : obj) (st : State) :
  well_formed st → u ∈ users st →
  persist e u = Some row' →
  e !! "updatedAt" = None →
  User.email row' = User.email u → User.id row' = User.id u →
  ∃ e' st' new, update_row u e st = (Return e', st') ∧
    row_by_email (User.email u) st' = Some new ∧
    ((new = u ∧ differs e u = false) ∨ new = User.set_updatedAt (clock st) row').
Proof.
  intros Hwf Hu Hw Hup Hem Hid. unfold update_row.
  destruct (differs e u) eqn:Hd; cbn [negb].
  - rewrite Hw. unfold sets_updatedAt. rewrite Hup.
    replace (User.email (User.set_updatedAt (clock st) row')) with (User.email u)
      by (rewrite <- Hem; by destruct row').
    rewrite (well_formed_email_kept st u Hwf Hu).
    eexists _, _, (User.set_updatedAt (clock st) row'). split_and!; [done | | by right].
    apply (row_by_email_replaced _ st u).
    + by apply well_formed_row_by_email.
    + by apply well_formed_find_row.
    + rewrite <- Hem. by destruct row'.
    + rewrite <- Hid. by destruct row'.
  - eexists _, _, u. split_and!; [done | by apply well_formed_row_by_email | by left].
Qed.

(** X14. Deactivation through a profile update blocks the password
    login.  On a well-formed store, updating a stored user with
    [{isActive: false}] returns, and from then on [validateUser] with a
    password that verifies against the user's hash throws "Account is
    deactivated". *)
Theorem deactivate_then_login (st : State) (u : User.t) :
  well_formed st → u ∈ users st →
  ∃ e st', update (User.id u) {["isActive" := VBool false]} st = (Return e, st') ∧
    ∀ password hashed,
      User.password u = Some hashed → bcrypt_compare password hashed = true →
      validateUser (User.email u) password st'
      = (Throw (UnauthorizedException "Account is deactivated"), st').
Proof.
  intros Hwf Hu.
  assert (Hnoid : ({["isActive" := VBool false]} : obj) !! "id" = None) by reflexivity.
  rewrite (update_as_update_row (User.id u) _ st u Hnoid
             (well_formed_find_row st u Hwf Hu)).
  set (e0 := object_assign (pick profile_select (toObject u)) {["isActive" := VBool false]}).
  assert (Hw : persist e0 u = Some (User.set_isActive false u)).
  { rewrite persist_typed; subst e0; clear;
      destruct u as [? ? ? ? [] [] ? ? ? ? ? ? ? ? ?]; reflexivity. }
  destruct (update_row_runs u _ e0 st Hwf Hu Hw) as (e & st' & new & Hrun & Hnew & Hshape);
    [reflexivity | by destruct u | by destruct u |].
  exists e, st'. split; [exact Hrun|].
  intros password hashed Hpw Hok.
  rewrite (validateUser_found _ _ _ new Hnew).
  replace (User.password new) with (Some hashed)
    by (destruct Hshape as [[-> _] | ->]; rewrite <- Hpw; by destruct u).
  rewrite Hok.
  replace (User.isActive new) with false; [done|].
  destruct Hshape as [[-> Hd] | ->]; [|by destruct u].
  assert (Hc : column "isActive" User.isActive User.set_isActive VBool as_bool ∈ columns)
    by (by apply (list_elem_of_lookup_2 _ 7)).
  pose proof (differs_false e0 u _ (VBool false) Hd Hc eq_refl) as Hg.
  cbn in Hg. by injection Hg.
Qed.

(** X15. After a profile update with [{password: p}] the login compares
    against [p] itself.  On a well-formed store the update of an active
    stored user returns, and afterwards [validateUser] returns the user for
    exactly the passwords that bcrypt verifies against the string [p] taken
    as a hash, and [null] for all others: the hash of [p] and the old hash
    play no part. *)
Theorem update_password_then_login (st : State) (u : User.t) (p : string) :
  well_formed st → u ∈ users st → User.isActive u = true →
  ∃ e st', update (User.id u) {["password" := VStr p]} st = (Return e, st') ∧
    ∀ password,
      (bcrypt_compare password p = false →
         validateUser (User.email u) password st' = (Return None, st')) ∧
      (bcrypt_compare password p = true →
         ∃ view, validateUser (User.email u) password st' = (Return (Some view), st') ∧
                 view !! "id" = Some (VUuid (User.id u)) ∧ view !! "password" = None).
Proof.
  intros Hwf Hu Hactive.
  assert (Hnoid : ({["password" := VStr p]} : obj) !! "id" = None) by reflexivity.
  rewrite (update_as_update_row (User.id u) _ st u Hnoid
             (well_formed_find_row st u Hwf Hu)).
  set (e0 := object_assign (pick profile_select (toObject u)) {["password" := VStr p]}).
  assert (Hw : persist e0 u = Some (User.set_password (Some p) u)).
  { rewrite persist_typed; subst e0; clear;
      destruct u as [? ? ? ? [] [] ? ? ? ? ? ? ? ? ?]; reflexivity. }
  destruct (update_row_runs u _ e0 st Hwf Hu Hw) as (e & st' & new & Hrun & Hnew & Hshape);
    [reflexivity | by destruct u | by destruct u |].
  exists e, st'. split; [exact Hrun|].
  assert (Hpw : User.password new = Some p).
  { destruct Hshape as [[-> Hd] | ->]; [|by destruct u].
    pose proof (differs_false e0 u _ (VStr p) Hd password_column_in eq_refl) as Hg.
    cbn in Hg. destruct (User.password u); cbn in Hg; congruence. }
  assert (Hact : User.isActive new = true)
    by (destruct Hshape as [[-> _] | ->]; rewrite <- Hactive; by destruct u).
  assert (Hid : User.id new = User.id u)
    by (destruct Hshape as [[-> _] | ->]; by destruct u).
  intros password. split; intros Hc.
  - by rewrite (validateUser_found _ _ _ new Hnew), Hpw, Hc.
  - eexists. rewrite (validateUser_found _ _ _ new Hnew), Hpw, Hc, Hact.
    split_and!; [done | by rewrite <- Hid | apply lookup_delete_eq].
Qed.

(** X16. What [create] stores, [findById] gives back.  On a well-formed
    store and a free email, [create] returns an entity with a generated
    id, and [findById] on that id returns the public view of the new user:
    the payload's email, name and picture, the payload's provider or LOCAL
    when it has none, active, and without the password. *)
Theorem create_then_findById (dto : CreateUserDto.t) (st : State) :
  well_formed st →
  row_by_email (CreateUserDto.email dto) st = None →
  ∃ e st' view,
    create dto st = (Return e, st') ∧
    e !! "id" = Some (VUuid (nextId st)) ∧
    findById (nextId st) st' = (Return view, st') ∧
    view !! "id" = Some (VUuid (nextId st)) ∧
    view !! "email" = Some (VStr (CreateUserDto.email dto)) ∧
    view !! "name" = Some (VStr (CreateUserDto.name dto)) ∧
    view !! "profilePicture" = Some (nullable VStr (CreateUserDto.profilePicture dto)) ∧
    view !! "authProvider"
      = Some (VStr (provider_string (default LOCAL (CreateUserDto.authProvider dto)))) ∧
    view !! "isActive" = Some (VBool true) ∧
    view !! "password" = None.
Proof.
  intros (_ & _ & Hlt) Hfree.
  destruct (create_fresh dto st Hfree) as (e & Hc & Hid & _).
  exists e, (inserted (new_row dto st) st), (pick profile_select (toObject (new_row dto st))).
  split_and!; try reflexivity; [exact Hc | exact Hid |].
  run. fold (inserted (new_row dto st) st).
  rewrite (find_row_inserted (new_row dto st) st); [done|].
  intros r Hr. pose proof (Hlt r Hr). simpl. lia.
Qed.
End UpdateThenLogin.

(** ** The Google callback *)

Section Callback.
Context `{PasswordHasher} `{JwtService} `{Postgres}.

(** X17. The Google callback logs the resolved user in and redirects to
    the front end's [/auth/callback] with the bearer token in the query
    string: the URL is the base, ["/auth/callback?token="] and the token
    [login] issues for the user, and the store is left as [login] leaves
    it.  The base is [http://localhost:3001] both when FRONTEND_URL is
    unset and when it is the empty string, and FRONTEND_URL otherwise. *)
Theorem googleAuthRedirect_carries_token (FRONTEND_URL : option string) (user : obj)
    (st : State) :
  (∀ id email,
     user !! "id" = Some (VUuid id) → user !! "email" = Some (VStr email) →
     googleAuthRedirect FRONTEND_URL user st
     = (Return (frontend_url FRONTEND_URL +:+ "/auth/callback?token=" +:+
                jwt_sign (claims email id)),
        (login user st).2) ∧
     (login user st).2 = (updateLastLogin id st).2) ∧
  frontend_url None = "http://localhost:3001" ∧
  frontend_url (Some "") = "http://localhost:3001" ∧
  (∀ url, url ≠ "" → frontend_url (Some url) = url).
Proof.
  split_and!.
  - intros id email Hid Hem. unfold googleAuthRedirect, mbind, M_bind.
    rewrite (login_run user id st Hid). unfold mret, M_ret. cbn [access_token snd].
    rewrite Hid, Hem. by fold (claims email id).
  - done.
  - done.
  - intros url Hurl. unfold frontend_url, truthy.
    apply String.eqb_neq in Hurl. by rewrite Hurl.
Qed.
End Callback.

(** * The services run on concrete stores *)

Lemma demo_decode_encode (n : nat) (email : string) :
  Demo.decode (Demo.encode n email) = Some (n, email).
Proof. induction n as [|n IH]; simpl; [done | by rewrite IH]. Qed.

Lemma demo_verify_sign (email : string) (sub : uuid) :
  Demo.verify (Demo.sign (claims email sub)) = Some (claims email sub).
Proof.
  unfold Demo.verify, Demo.sign.
  replace (claims email sub !! "sub") with (Some (VUuid sub)) by reflexivity.
  replace (claims email sub !! "email") with (Some (VStr email)) by reflexivity.
  by rewrite demo_decode_encode, N2Nat.id.
Qed.

Import Demo.

Lemma validateUser_invalid_credentials_witness :
  validateUser "nobody@example.com" "secret" store = (Return None, store) ∧
  validateUser "carol@example.com" "secret" store = (Return None, store) ∧
  validateUser "alice@example.com" "wrong" store = (Return None, store).
Proof.
  split_and!; apply validateUser_invalid_credentials.
  - left. reflexivity.
  - right. left. exists carol. split; reflexivity.
  - right. right. exists alice, "$2b$12$correct horse". split_and!; reflexivity.
Defined.

Lemma validateUser_deactivated_witness :
  validateUser "bob@example.com" "hunter22" store
  = (Throw (UnauthorizedException "Account is deactivated"), store) ∧
  validateUser "bob@example.com" "wrong" store = (Return None, store).
Proof.
  split.
  - apply (validateUser_deactivated "bob@example.com" "hunter22" store bob
             "$2b$12$hunter22" eq_refl eq_refl eq_refl). reflexivity.
  - apply (validateUser_deactivated "bob@example.com" "wrong" store bob
             "$2b$12$hunter22" eq_refl eq_refl eq_refl). reflexivity.
Defined.

Lemma validateOAuthUser_three_steps_witness :
  validateOAuthUser (OAuthUserData.mk "alice@example.com" "C" None GOOGLE "g-1001") store
  = (Return (toObject carol), (updateLastLogin 3%N store).2) ∧
  validateOAuthUser (OAuthUserData.mk "alice@example.com" "A" None GOOGLE "g-2002") store
  = (Throw (ConflictException
       "An account with this email already exists. Please sign in with your password."),
     store) ∧
  ∃ e, validateOAuthUser (OAuthUserData.mk "erin@example.com" "Erin" None GOOGLE "g-3003")
         store
       = (Return e,
          inserted (User.mk 4%N "erin@example.com" None "Erin" None GOOGLE (Some "g-3003")
                      true false None None None 1000%Z 1000%Z None) store) ∧
       e !! "id" = Some (VUuid 4%N) ∧ e !! "email" = Some (VStr "erin@example.com").
Proof.
  split_and!.
  - apply (validateOAuthUser_three_steps
             (OAuthUserData.mk "alice@example.com" "C" None GOOGLE "g-1001") store).
    reflexivity.
  - apply (validateOAuthUser_three_steps
             (OAuthUserData.mk "alice@example.com" "A" None GOOGLE "g-2002") store).
    + reflexivity.
    + exists alice. reflexivity.
  - apply (validateOAuthUser_three_steps
             (OAuthUserData.mk "erin@example.com" "Erin" None GOOGLE "g-3003") store);
      reflexivity.
Defined.

Lemma validateOAuthUser_conflict_keeps_store_witness :
  ∃ message st',
    validateOAuthUser (OAuthUserData.mk "alice@example.com" "A" None GOOGLE "g-2002") store
    = (Throw (ConflictException message), st') ∧
    users st' = [alice; bob; carol] ∧ st' = store.
Proof.
  apply (validateOAuthUser_conflict_keeps_store
           (OAuthUserData.mk "alice@example.com" "A" None GOOGLE "g-2002") store).
  - reflexivity.
  - exists alice. reflexivity.
Defined.

Lemma register_success_then_conflict_witness :
  register (RegisterDto.mk "alice@example.com" "another password" "Alice" None) store
  = (Throw (ConflictException "User with this email already exists"), store) ∧
  ∃ r, register (RegisterDto.mk "a@x.com" "longenough1" "A" None) empty
       = (Return r,
          inserted (User.mk 1%N "a@x.com" (Some "$2b$12$longenough1") "A" None LOCAL None
                      true false None None None 1000%Z 1000%Z None) empty).
Proof.
  split.
  - destruct (register_success_then_conflict
                (RegisterDto.mk "alice@example.com" "correct horse" "Alice" None) store)
      as (Htaken & _ & _).
    apply (Htaken (ex_intro _ alice eq_refl) "another password").
  - destruct (register_success_then_conflict
                (RegisterDto.mk "a@x.com" "longenough1" "A" None) empty)
      as (_ & Hfree & _).
    apply (Hfree eq_refl).
Defined.

Lemma user_view_has_no_password_witness :
  let r := mkAuthResponse (omit "password" (toObject alice)) "1.alice@example.com" in
  login (toObject alice) store = (Return r, (updateLastLogin 1%N store).2) ∧
  user r !! "password" = None.
Proof.
  intros r.
  assert (Hl : login (toObject alice) store = (Return r, (updateLastLogin 1%N store).2))
    by reflexivity.
  destruct user_view_has_no_password as (_ & Hlogin & _).
  split; [exact Hl | exact (Hlogin (toObject alice) store r _ Hl)].
Defined.

(** C3, as stated, fails.  The user view a registration returns has no
    [password], but the two token properties are present in it, holding
    [null]; so they are in the view of the login that follows with the
    same credentials; and a stored user with pending tokens gets the
    tokens themselves back in the view of a login. *)
Lemma login_view_carries_tokens :
  (∃ registered st1 view r st2,
     register (RegisterDto.mk "a@x.com" "longenough1" "A" None) empty
     = (Return registered, st1) ∧
     user registered !! "password" = None ∧
     user registered !! "emailVerificationToken" = Some VNull ∧
     user registered !! "resetPasswordToken" = Some VNull ∧
     validateUser "a@x.com" "longenough1" st1 = (Return (Some view), st1) ∧
     login view st1 = (Return r, st2) ∧
     user r !! "password" = None ∧
     user r !! "emailVerificationToken" = Some VNull ∧
     user r !! "resetPasswordToken" = Some VNull) ∧
  validateUser "alice@example.com" "correct horse" store
  = (Return (Some (omit "password" (toObject alice))), store) ∧
  ∃ r st', login (omit "password" (toObject alice)) store = (Return r, st') ∧
    user r !! "password" = None ∧
    user r !! "emailVerificationToken" = Some (VStr "verify-7f3a") ∧
    user r !! "resetPasswordToken" = Some (VStr "reset-91c2").
Proof.
  split_and!.
  - eexists _, _, _, _, _. split_and!.
    + reflexivity.
    + reflexivity.
    + reflexivity.
    + reflexivity.
    + reflexivity.
    + apply (login_run _ 1%N). reflexivity.
    + reflexivity.
    + reflexivity.
    + reflexivity.
  - reflexivity.
  - eexists _, _. split; [apply (login_run _ 1%N); reflexivity|].
    split_and!; reflexivity.
Qed.

Lemma password_hash_only_from_registration_witness :
  let rqs := [(1000%Z, Register (RegisterDto.mk "a@x.com" "longenough1" "A" None));
              (2000%Z, ValidateOAuthUser
                         (OAuthUserData.mk "g@x.com" "G" None GOOGLE "g-1"))] in
  let dave := User.mk 1%N "a@x.com" (Some "$2b$12$longenough1") "A" None LOCAL None
                true false None None None 1000%Z 1000%Z None in
  (run_core rqs empty ∅).2 !! 1%N = Some ByRegistration ∧
  users (run_core rqs empty ∅).1
  = [dave; User.mk 2%N "g@x.com" None "G" None GOOGLE (Some "g-1")
             true false None None None 2000%Z 2000%Z None].
Proof.
  intros rqs dave. split; [|reflexivity].
  destruct password_hash_only_from_registration as (Hrun & Hempty & _).
  apply (Hrun rqs empty ∅ dave (Hempty 1%N 1000%Z)).
  - apply (list_elem_of_lookup_2 _ 0). reflexivity.
  - discriminate.
Defined.

Lemma token_encodes_user_witness :
  let view := omit "password" (toObject alice) in
  let r := mkAuthResponse view "1.alice@example.com" in
  validateUser "alice@example.com" "correct horse" store = (Return (Some view), store) ∧
  login view store = (Return r, (updateLastLogin 1%N store).2) ∧
  verify (access_token r) = Some (claims "alice@example.com" 1%N).
Proof.
  intros view r.
  assert (Hv : validateUser "alice@example.com" "correct horse" store
               = (Return (Some view), store)) by reflexivity.
  assert (Hl : login view store = (Return r, (updateLastLogin 1%N store).2))
    by reflexivity.
  split_and!; [exact Hv | exact Hl |].
  destruct (@token_encodes_user hasher jwt postgres verify demo_verify_sign)
    as (_ & Hlogin & _).
  apply (Hlogin view 1%N "alice@example.com" store r (updateLastLogin 1%N store).2);
    [reflexivity | reflexivity | exact Hl].
Defined.

Lemma getProfile_found_or_not_witness :
  getProfile 99%N store = (Throw (NotFoundException "User not found"), store) ∧
  ∃ view, getProfile 1%N store = (Return view, store) ∧
    view !! "email" = Some (VStr "alice@example.com") ∧
    view !! "password" = None ∧
    view !! "resetPasswordToken" = None.
Proof.
  split.
  - apply (getProfile_found_or_not 99%N store).
    intros u Hu. unfold store in Hu. simpl in Hu.
    rewrite !elem_of_cons in Hu. destruct Hu as [->|[->|[->|Hu]]]; [done..|].
    by apply elem_of_nil in Hu.
  - destruct (proj2 (getProfile_found_or_not 1%N store) alice eq_refl)
      as (view & Hrun & _ & _ & Hem & _ & _ & Hpw & _ & Hrp & _).
    exists view. split_and!; [exact Hrun | exact Hem | exact Hpw | exact Hrp].
Defined.



(** ** Further runs on the concrete store *)

Lemma demo_store_well_formed : well_formed store.
Proof.
  unfold well_formed, store. simpl. split_and!.
  - apply (bool_decide_unpack _). by vm_compute.
  - apply (bool_decide_unpack _). by vm_compute.
  - intros u Hu. rewrite !elem_of_cons in Hu.
    destruct Hu as [->|[->|[->|Hu]]]; [by vm_compute..|]. by apply elem_of_nil in Hu.
Qed.

Lemma demo_no_user_99 : ∀ u, u ∈ users store → User.id u ≠ 99%N.
Proof.
  intros u Hu. unfold store in Hu. simpl in Hu. rewrite !elem_of_cons in Hu.
  destruct Hu as [->|[->|[->|Hu]]]; [done..|]. by apply elem_of_nil in Hu.
Qed.

Lemma demo_alice_stored : alice ∈ users store.
Proof. by apply (list_elem_of_lookup_2 _ 0). Qed.

Lemma remove_deletes_the_user_witness :
  ∃ st', remove 2%N store = (Return tt, st') ∧
         users st' = [alice; carol] ∧ find_row 2%N st' = None.
Proof.
  destruct (remove_deletes_the_user 2%N store bob eq_refl)
    as (st' & Hrun & Husers & _ & Hgone & _).
  exists st'. split_and!; [exact Hrun | rewrite Husers; reflexivity | exact Hgone].
Defined.

Lemma update_and_remove_unknown_id_witness :
  UsersController.update "not-a-uuid" {["name" := VStr "Nobody"]} store
  = (Throw (RepositoryError "invalid input syntax for type uuid"), store) ∧
  UsersController.remove "not-a-uuid" store
  = (Throw (RepositoryError "invalid input syntax for type uuid"), store) ∧
  UsersController.update "99" {["name" := VStr "Nobody"]} store
  = (Throw (NotFoundException "User not found"), store) ∧
  UsersController.remove "99" store = (Throw (NotFoundException "User not found"), store).
Proof.
  assert (Hbad : pg_uuid "not-a-uuid" = None) by reflexivity.
  assert (Hgood : pg_uuid "99" = Some 99%N) by reflexivity.
  destruct (update_and_remove_unknown_id "not-a-uuid" store) as [Hno _].
  destruct (Hno Hbad) as (Hup & Hrm & _).
  destruct (update_and_remove_unknown_id "99" store) as [_ Hnone].
  destruct (Hnone 99%N Hgood demo_no_user_99) as (Hup' & Hrm' & _).
  split_and!; [apply Hup | exact Hrm | apply Hup' | exact Hrm'].
Defined.

Lemma findAll_lists_public_views_witness :
  (∃ views, findAll store = (Return views, store) ∧ length views = 3%nat ∧
            pick profile_select (toObject alice) ∈ views) ∧
  findAll (updateLastLogin 1%N store).2
  = (Return [pick profile_select (toObject bob);
             pick profile_select (toObject carol);
             pick profile_select (toObject alice)],
     (updateLastLogin 1%N store).2).
Proof.
  split; [|reflexivity].
  destruct (findAll_lists_public_views store) as (views & Hrun & _ & Hlen & Hall & _).
  exists views. split_and!; [exact Hrun | exact Hlen | exact (Hall alice demo_alice_stored)].
Defined.

Lemma updateLastLogin_touches_only_timestamps_witness :
  ∃ st', updateLastLogin 99%N store = (Return tt, st') ∧ users st' = [alice; bob; carol].
Proof.
  destruct (updateLastLogin_touches_only_timestamps 99%N store)
    as (st' & Hrun & _ & _ & _ & Hsame).
  exists st'. split; [exact Hrun | exact (Hsame demo_no_user_99)].
Defined.

Lemma well_formed_preserved_witness :
  well_formed (register (RegisterDto.mk "a@x.com" "longenough1" "A" None) store).2 ∧
  well_formed (update 3%N {["email" := VStr "alice@example.com"]} store).2.
Proof.
  destruct (well_formed_preserved store demo_store_well_formed)
    as (_ & Hup & _ & _ & _ & Hreg & _).
  split; [apply Hreg | apply Hup].
Defined.

Lemma register_then_login_witness :
  ∃ registered st' view,
    register (RegisterDto.mk "a@x.com" "longenough1" "A" None) empty
    = (Return registered, st') ∧
    validateUser "a@x.com" "longenough1" st' = (Return (Some view), st') ∧
    view !! "id" = Some (VUuid 1%N).
Proof.
  destruct (register_then_login (RegisterDto.mk "a@x.com" "longenough1" "A" None) empty)
    as (registered & st' & view & _ & _ & Hreg & Hv & Hid & _);
    [reflexivity | reflexivity | reflexivity |].
  exists registered, st', view. split_and!; [exact Hreg | exact Hv | exact Hid].
Defined.

Lemma oauth_second_sign_in_witness :
  ∃ first st1 again st2,
    validateOAuthUser (OAuthUserData.mk "erin@example.com" "Erin" None GOOGLE "g-3003") store
    = (Return first, st1) ∧
    validateOAuthUser (OAuthUserData.mk "new@example.com" "E" None GOOGLE "g-3003")
      (at_time 2000%Z st1)
    = (Return again, st2) ∧
    again !! "id" = Some (VUuid 4%N) ∧
    length (users st2) = length (users st1).
Proof.
  destruct (oauth_second_sign_in
              (OAuthUserData.mk "erin@example.com" "Erin" None GOOGLE "g-3003") store 2000%Z
              eq_refl eq_refl)
    as (first & st1 & Hfirst & _ & Hagain).
  destruct (Hagain "new@example.com" "E" None) as (again & st2 & Hrun & Hid & _ & Hlen & _).
  exists first, st1, again, st2. split_and!; [exact Hfirst | exact Hrun | exact Hid | exact Hlen].
Defined.

Lemma oauth_user_has_no_local_login_witness :
  ∃ e st',
    validateOAuthUser (OAuthUserData.mk "erin@example.com" "Erin" None GOOGLE "g-3003") store
    = (Return e, st') ∧
    validateUser "erin@example.com" "anything" st' = (Return None, st').
Proof.
  destruct (oauth_user_has_no_local_login
              (OAuthUserData.mk "erin@example.com" "Erin" None GOOGLE "g-3003") store
              eq_refl eq_refl)
    as (e & st' & Hrun & Hnull).
  exists e, st'. split; [exact Hrun | apply Hnull].
Defined.

Lemma oauth_ignores_deactivation_witness :
  ∃ st1 r st2,
    validateOAuthUser (OAuthUserData.mk "dan@example.com" "Dan" None GOOGLE "g-4004")
      suspended
    = (Return (toObject dan), st1) ∧
    login (toObject dan) st1 = (Return r, st2) ∧
    access_token r = "11111.dan@example.com".
Proof.
  destruct (oauth_ignores_deactivation
              (OAuthUserData.mk "dan@example.com" "Dan" None GOOGLE "g-4004") suspended dan
              eq_refl eq_refl)
    as (st1 & r & st2 & Hrun & Hlogin & Htoken & _).
  exists st1, r, st2. split_and!; [exact Hrun | exact Hlogin | exact Htoken].
Defined.

Lemma register_empty_password_witness :
  ∃ r st', register (RegisterDto.mk "a@x.com" "" "A" None) empty = (Return r, st') ∧
           validateUser "a@x.com" "" st' = (Return None, st').
Proof.
  destruct (register_empty_password "a@x.com" "A" None empty eq_refl)
    as (r & st' & Hrun & _ & Hnull).
  exists r, st'. split; [exact Hrun | apply Hnull].
Defined.

Lemma login_returns_stale_lastLogin_witness :
  ∃ r st2,
    login (omit "password" (toObject alice)) store = (Return r, st2) ∧
    row_by_email "alice@example.com" st2 = Some (refreshed 1000%Z alice) ∧
    user r !! "lastLogin" = Some VNull.
Proof.
  destruct (login_returns_stale_lastLogin "alice@example.com" "correct horse" store store
              (omit "password" (toObject alice)))
    as (row & r & st2 & Hrow & Hlogin & Hstored & _ & Hview); [reflexivity|].
  injection Hrow as <-.
  exists r, st2. split_and!; [exact Hlogin | exact Hstored | exact Hview].
Defined.

Lemma login_after_remove_witness :
  ∃ st1 r st2,
    remove 1%N store = (Return tt, st1) ∧
    login (omit "password" (toObject alice)) st1 = (Return r, st2) ∧
    access_token r = "1.alice@example.com" ∧
    getProfile 1%N st2 = (Throw (NotFoundException "User not found"), st2).
Proof.
  destruct (login_after_remove 1%N store alice eq_refl)
    as (st1 & r & st2 & Hrm & Hlogin & Htoken & _ & Hprofile).
  exists st1, r, st2. split_and!; [exact Hrm | exact Hlogin | exact Htoken | exact Hprofile].
Defined.

Lemma update_touches_one_user_witness :
  users (update 3%N {["name" := VStr "C"]} store).2 !! 0%nat = Some alice ∧
  length (users (update 3%N {["name" := VStr "C"]} store).2) = 3%nat.
Proof.
  assert (Hnoid : ({["name" := VStr "C"]} : obj) !! "id" = None) by reflexivity.
  destruct (update_touches_one_user 3%N {["name" := VStr "C"]} store Hnoid)
    as (Hlen & _ & Hframe).
  split; [apply Hframe; [reflexivity | discriminate] | exact Hlen].
Defined.

Lemma deactivate_then_login_witness :
  ∃ e st', update 1%N {["isActive" := VBool false]} store = (Return e, st') ∧
    validateUser "alice@example.com" "correct horse" st'
    = (Throw (UnauthorizedException "Account is deactivated"), st').
Proof.
  destruct (deactivate_then_login store alice demo_store_well_formed demo_alice_stored)
    as (e & st' & Hrun & Hblocked).
  exists e, st'. split; [exact Hrun|].
  apply (Hblocked "correct horse" "$2b$12$correct horse"); reflexivity.
Defined.

Lemma update_password_then_login_witness :
  ∃ e st', update 1%N {["password" := VStr "new password"]} store = (Return e, st') ∧
    validateUser "alice@example.com" "new password" st' = (Return None, st') ∧
    validateUser "alice@example.com" "correct horse" st' = (Return None, st').
Proof.
  destruct (update_password_then_login store alice "new password" demo_store_well_formed
              demo_alice_stored eq_refl)
    as (e & st' & Hrun & Hlogin).
  exists e, st'. split_and!; [exact Hrun | |].
  - apply (Hlogin "new password"). reflexivity.
  - apply (Hlogin "correct horse"). reflexivity.
Defined.

Lemma create_then_findById_witness :
  ∃ e st' view,
    create (CreateUserDto.mk "erin@example.com" None "Erin" None (Some GOOGLE) (Some "g-3003"))
      store
    = (Return e, st') ∧
    findById 4%N st' = (Return view, st') ∧
    view !! "authProvider" = Some (VStr "google") ∧
    view !! "isActive" = Some (VBool true).
Proof.
  destruct (create_then_findById
              (CreateUserDto.mk "erin@example.com" None "Erin" None (Some GOOGLE)
                 (Some "g-3003"))
              store demo_store_well_formed eq_refl)
    as (e & st' & view & Hrun & _ & Hfind & _ & _ & _ & _ & Hprov & Hact & _).
  exists e, st', view. split_and!; [exact Hrun | exact Hfind | exact Hprov | exact Hact].
Defined.

Lemma googleAuthRedirect_carries_token_witness :
  googleAuthRedirect None (toObject carol) store
  = (Return "http://localhost:3001/auth/callback?token=111.carol@example.com",
     (updateLastLogin 3%N store).2).
Proof.
  destruct (googleAuthRedirect_carries_token None (toObject carol) store)
    as (Hrun & _).
  destruct (Hrun 3%N "carol@example.com") as [Hurl Hst]; [reflexivity | reflexivity |].
  rewrite Hurl, Hst. reflexivity.
Defined.
